(** * lite-vidrush: the timeline engine

    A shallow embedding of [lib/types.ts], [lib/timelineOps.ts], the editor
    store ([lib/store.ts]) and the player listener of
    [components/Preview.tsx], followed by the properties of the timeline
    engine.

    Conventions of the embedding.
    - A JavaScript [number] that counts frames (or is an array index, or a
      frame rate) is an integer of [Z]; the fractional settings (volume,
      zoom, position, scale, ...) are rationals of [Q].
    - [undefined] and [null] are [None].
    - An object spread [{...o, f: v}] is the record [o] rebuilt with the
      field [f] replaced. *)

From Stdlib Require Import String Ascii DecimalString.
From Stdlib Require Import ZArith QArith Qminmax Bool Lia.
From Stdlib Require Import List Permutation Sorted.
Import ListNotations.
Open Scope string_scope.
Open Scope list_scope.
Open Scope Z_scope.

(** ** Data model ([lib/types.ts]) *)

Inductive ClipType : Type := video | audio | image.

Inductive FontWeight : Type := normal | bold.

Inductive TextAlign : Type := left | center | right.

Record Position : Type := mkPosition { x : Q; y : Q }.

Record Scale : Type := mkScale { width : Q; height : Q }.

Module Clip.

Record t : Type := mk {
  id : string;
  src : string;
  startFrame : Z;
  endFrame : Z;
  order : Z;
  type : ClipType;
  position : option Position;
  scale : option Scale;
  rotation : option Q;
  volume : option Q;
  muted : option bool;
  trimStart : option Z;
  trimEnd : option Z
}.

(** [{...clip, startFrame: s, endFrame: e}] *)
Definition withFrames (clip : t) (s e : Z) : t :=
  mk (id clip) (src clip) s e (order clip) (type clip) (position clip)
     (scale clip) (rotation clip) (volume clip) (muted clip)
     (trimStart clip) (trimEnd clip).

(** [{...clip, order: index}] *)
Definition withOrder (clip : t) (index : Z) : t :=
  mk (id clip) (src clip) (startFrame clip) (endFrame clip) index (type clip)
     (position clip) (scale clip) (rotation clip) (volume clip) (muted clip)
     (trimStart clip) (trimEnd clip).

(** [clip.volume = v] *)
Definition withVolume (clip : t) (v : Q) : t :=
  mk (id clip) (src clip) (startFrame clip) (endFrame clip) (order clip)
     (type clip) (position clip) (scale clip) (rotation clip) (Some v)
     (muted clip) (trimStart clip) (trimEnd clip).

(** [clip.muted = !clip.muted]; an absent [muted] is falsy. *)
Definition toggledMuted (clip : t) : t :=
  mk (id clip) (src clip) (startFrame clip) (endFrame clip) (order clip)
     (type clip) (position clip) (scale clip) (rotation clip) (volume clip)
     (Some (negb match muted clip with Some b => b | None => false end))
     (trimStart clip) (trimEnd clip).

End Clip.

Module TextStyle.

Record t : Type := mk {
  fontSize : Q;
  fontFamily : string;
  color : string;
  backgroundColor : option string;
  opacity : Q;
  fontWeight : FontWeight;
  textAlign : TextAlign
}.

End TextStyle.

Module TextOverlay.

Record t : Type := mk {
  id : string;
  text : string;
  startFrame : Z;
  endFrame : Z;
  position : Position;
  scale : option Scale;
  rotation : option Q;
  style : TextStyle.t
}.

(** [{...text, startFrame: s, endFrame: e}] *)
Definition withFrames (text : t) (s e : Z) : t :=
  mk (id text) (TextOverlay.text text) s e (position text) (scale text)
     (rotation text) (style text).

End TextOverlay.

(** What the [media] array of a state can hold at run time.  The TypeScript
    type says [Clip]; [reorderClips] can also leave the object
    [{order: index}], which is what spreading [undefined] and adding [order]
    builds. *)
Inductive RuntimeClip : Type :=
| ClipObj (clip : Clip.t)
| OrderOnly (order : Z).

(** The state, over the type [C] of the elements of [media]. *)
Record EditorStateOf (C : Type) : Type := mkEditorState {
  media : list C;
  texts : list TextOverlay.t;
  selectedId : option string;
  playhead : Z;
  frameRate : Z;
  duration : Z;
  isPlaying : bool;
  masterVolume : Q;
  muted : bool;
  zoom : Q;
  scrollPosition : Q
}.

Arguments mkEditorState {C}.
Arguments media {C}.
Arguments texts {C}.
Arguments selectedId {C}.
Arguments playhead {C}.
Arguments frameRate {C}.
Arguments duration {C}.
Arguments isPlaying {C}.
Arguments masterVolume {C}.
Arguments muted {C}.
Arguments zoom {C}.
Arguments scrollPosition {C}.

Definition EditorState : Type := EditorStateOf Clip.t.

Definition DEFAULT_EDITOR_STATE : EditorState :=
  mkEditorState [] [] None 0 30 900 false 1%Q false 1%Q 0%Q.

(** *** Field updates of a state *)

Definition withMedia {C D : Type} (state : EditorStateOf C) (m : list D)
  : EditorStateOf D :=
  mkEditorState m (texts state) (selectedId state) (playhead state)
    (frameRate state) (duration state) (isPlaying state) (masterVolume state)
    (muted state) (zoom state) (scrollPosition state).

Definition withTexts {C : Type} (state : EditorStateOf C)
  (t : list TextOverlay.t) : EditorStateOf C :=
  mkEditorState (media state) t (selectedId state) (playhead state)
    (frameRate state) (duration state) (isPlaying state) (masterVolume state)
    (muted state) (zoom state) (scrollPosition state).

Definition withSelectedId {C : Type} (state : EditorStateOf C)
  (sel : option string) : EditorStateOf C :=
  mkEditorState (media state) (texts state) sel (playhead state)
    (frameRate state) (duration state) (isPlaying state) (masterVolume state)
    (muted state) (zoom state) (scrollPosition state).

Definition withPlayhead {C : Type} (state : EditorStateOf C) (p : Z)
  : EditorStateOf C :=
  mkEditorState (media state) (texts state) (selectedId state) p
    (frameRate state) (duration state) (isPlaying state) (masterVolume state)
    (muted state) (zoom state) (scrollPosition state).

Definition withFrameRate {C : Type} (state : EditorStateOf C) (r : Z)
  : EditorStateOf C :=
  mkEditorState (media state) (texts state) (selectedId state)
    (playhead state) r (duration state) (isPlaying state)
    (masterVolume state) (muted state) (zoom state) (scrollPosition state).

Definition withDuration {C : Type} (state : EditorStateOf C) (d : Z)
  : EditorStateOf C :=
  mkEditorState (media state) (texts state) (selectedId state)
    (playhead state) (frameRate state) d (isPlaying state)
    (masterVolume state) (muted state) (zoom state) (scrollPosition state).

Definition withIsPlaying {C : Type} (state : EditorStateOf C) (b : bool)
  : EditorStateOf C :=
  mkEditorState (media state) (texts state) (selectedId state)
    (playhead state) (frameRate state) (duration state) b
    (masterVolume state) (muted state) (zoom state) (scrollPosition state).

Definition withMasterVolume {C : Type} (state : EditorStateOf C) (v : Q)
  : EditorStateOf C :=
  mkEditorState (media state) (texts state) (selectedId state)
    (playhead state) (frameRate state) (duration state) (isPlaying state) v
    (muted state) (zoom state) (scrollPosition state).

Definition withZoom {C : Type} (state : EditorStateOf C) (z : Q)
  : EditorStateOf C :=
  mkEditorState (media state) (texts state) (selectedId state)
    (playhead state) (frameRate state) (duration state) (isPlaying state)
    (masterVolume state) (muted state) z (scrollPosition state).

Definition withMuted {C : Type} (state : EditorStateOf C) (m : bool)
  : EditorStateOf C :=
  mkEditorState (media state) (texts state) (selectedId state)
    (playhead state) (frameRate state) (duration state) (isPlaying state)
    (masterVolume state) m (zoom state) (scrollPosition state).

(** ** JavaScript array primitives *)

(** [array.map((v, index) => f(v, index))], counting from [start]. *)
Fixpoint mapiFrom {A B : Type} (f : A -> Z -> B) (start : Z) (l : list A)
  : list B :=
  match l with
  | [] => []
  | v :: l' => f v start :: mapiFrom f (start + 1) l'
  end.

Definition mapi {A B : Type} (f : A -> Z -> B) (l : list A) : list B :=
  mapiFrom f 0 l.

(** The position [Array.prototype.splice] starts from: a negative [start]
    counts from the end, and the result is kept within [0, len]. *)
Definition relativeStart (len : nat) (start : Z) : nat :=
  if start <? 0
  then Z.to_nat (Z.max (Z.of_nat len + start) 0)
  else Z.to_nat (Z.min start (Z.of_nat len)).

(** [array.splice(start, deleteCount, ...items)]: the removed elements and
    the array afterwards. *)
Definition splice {A : Type} (array : list A) (start deleteCount : Z)
  (items : list A) : list A * list A :=
  let len := length array in
  let k := relativeStart len start in
  let d := Z.to_nat (Z.min (Z.max deleteCount 0) (Z.of_nat (len - k))) in
  (firstn d (skipn k array),
   firstn k array ++ items ++ skipn (k + d) array).

(** [array.find(p)] followed by an in-place update of the element found. *)
Fixpoint updateFirst {A : Type} (p : A -> bool) (f : A -> A) (l : list A)
  : list A :=
  match l with
  | [] => []
  | v :: l' => if p v then f v :: l' else v :: updateFirst p f l'
  end.

(** [Math.max(...values, 0)] *)
Definition maxWithZero (values : list Z) : Z := fold_right Z.max 0 values.

(** Template-literal rendering of an integral number. *)
Definition numberToString (n : Z) : string :=
  NilZero.string_of_int (Z.to_int n).

(** ** Transition functions ([lib/timelineOps.ts]) *)

(** [addClip]; the id that [generateId()] returns is the argument [newId],
    and [clip] carries the fields of [Omit<Clip, 'id' | 'order'>]. *)
Definition addClip (state : EditorState) (clip : Clip.t) (newId : string)
  : EditorState :=
  let newClip :=
    Clip.mk newId (Clip.src clip) (Clip.startFrame clip) (Clip.endFrame clip)
      (Z.of_nat (length (media state))) (Clip.type clip) (Clip.position clip)
      (Clip.scale clip) (Clip.rotation clip) (Clip.volume clip)
      (Clip.muted clip) (Clip.trimStart clip) (Clip.trimEnd clip) in
  withSelectedId (withMedia state (media state ++ [newClip]))
    (Some (Clip.id newClip)).

Definition addTextOverlay (state : EditorState) (text : TextOverlay.t)
  (newId : string) : EditorState :=
  let newText :=
    TextOverlay.mk newId (TextOverlay.text text) (TextOverlay.startFrame text)
      (TextOverlay.endFrame text) (TextOverlay.position text)
      (TextOverlay.scale text) (TextOverlay.rotation text)
      (TextOverlay.style text) in
  withSelectedId (withTexts state (texts state ++ [newText]))
    (Some (TextOverlay.id newText)).

(** [state.selectedId === id] *)
Definition selectedIs (sel : option string) (id : string) : bool :=
  match sel with
  | Some s => String.eqb s id
  | None => false
  end.

Definition removeItem (state : EditorState) (id : string) : EditorState :=
  let newState :=
    mkEditorState
      (filter (fun clip => negb (String.eqb (Clip.id clip) id)) (media state))
      (filter (fun text => negb (String.eqb (TextOverlay.id text) id))
         (texts state))
      (if selectedIs (selectedId state) id then None else selectedId state)
      (playhead state) (frameRate state) (duration state) (isPlaying state)
      (masterVolume state) (muted state) (zoom state)
      (scrollPosition state) in
  (* Reorder remaining clips *)
  withMedia newState
    (mapi (fun clip index => Clip.withOrder clip index) (media newState)).

Definition trimClip (state : EditorState) (clipId : string)
  (newStartFrame newEndFrame : Z) : EditorState :=
  withMedia state
    (map (fun clip =>
            if String.eqb (Clip.id clip) clipId
            then Clip.withFrames clip (Z.max 0 newStartFrame)
                   (Z.max (newStartFrame + 1) newEndFrame)
            else clip)
       (media state)).

Definition trimTextOverlay (state : EditorState) (textId : string)
  (newStartFrame newEndFrame : Z) : EditorState :=
  withTexts state
    (map (fun text =>
            if String.eqb (TextOverlay.id text) textId
            then TextOverlay.withFrames text (Z.max 0 newStartFrame)
                   (Z.max (newStartFrame + 1) newEndFrame)
            else text)
       (texts state)).

(** [const [movedClip] = removed]: the first element, [undefined] when the
    array is empty. *)
Definition firstOrUndefined {A : Type} (removed : list (option A))
  : option A :=
  match removed with
  | [] => None
  | v :: _ => v
  end.

(** [{...clip, order: index}] for a [clip] that may be [undefined]. *)
Definition spreadWithOrder (clip : option Clip.t) (index : Z) : RuntimeClip :=
  match clip with
  | Some c => ClipObj (Clip.withOrder c index)
  | None => OrderOnly index
  end.

Definition reorderClips (state : EditorState) (fromIndex toIndex : Z)
  : EditorStateOf RuntimeClip :=
  let newMedia := map Some (media state) in
  let '(removed, newMedia) := splice newMedia fromIndex 1 [] in
  let movedClip := firstOrUndefined removed in
  let '(_, newMedia) := splice newMedia toIndex 0 [movedClip] in
  (* Update order property *)
  let reorderedMedia := mapi spreadWithOrder newMedia in
  withMedia state reorderedMedia.

Definition setPlayhead (state : EditorState) (frame : Z) : EditorState :=
  withIsPlaying
    (withPlayhead state (Z.max 0 (Z.min frame (duration state))))
    false. (* Stop playback when manually seeking *)

Definition togglePlayback (state : EditorState) : EditorState :=
  withIsPlaying state (negb (isPlaying state)).

Definition setZoom (state : EditorState) (zoom : Q) : EditorState :=
  withZoom state (Qmax (1 # 10) (Qmin zoom (10 # 1))).

Definition selectItem (state : EditorState) (id : option string)
  : EditorState :=
  withSelectedId state id.

(** ** Duration policy ([lib/timelineOps.ts]) *)

Definition calculateTimelineDuration (state : EditorState) : Z :=
  let maxEndFrame :=
    maxWithZero
      (map Clip.endFrame (media state)
       ++ map TextOverlay.endFrame (texts state)) in
  maxEndFrame.

Definition getMinimumTimelineDuration (state : EditorState) : Z :=
  calculateTimelineDuration state.

Definition getOptimalTimelineDurationWith (state : EditorState)
  (bufferSeconds : Z) : Z :=
  let minDuration := getMinimumTimelineDuration state in
  let bufferFrames := bufferSeconds * frameRate state in
  Z.max (minDuration + bufferFrames) (frameRate state * 10).

(** The call with the default [bufferSeconds = 2]. *)
Definition getOptimalTimelineDuration (state : EditorState) : Z :=
  getOptimalTimelineDurationWith state 2.

Definition autoAdjustTimelineDuration (state : EditorState) : EditorState :=
  let optimalDuration := getOptimalTimelineDuration state in
  withDuration state (Z.max optimalDuration (duration state)).

Definition fitTimelineToContent (state : EditorState) : EditorState :=
  let minDuration :=
    Z.max (getMinimumTimelineDuration state) (frameRate state * 5) in
  withDuration state minDuration.

(** ** Validation ([lib/timelineOps.ts]) *)

(** [[...clips].sort((a, b) => a.startFrame - b.startFrame)].  The sort of
    an array is stable; this is the stable insertion sort, and
    [sortByStartFrame_sorted], [sortByStartFrame_perm] and
    [sortByStartFrame_stable] below pin its result down. *)
Fixpoint insertByStartFrame (a : Clip.t) (sorted : list Clip.t)
  : list Clip.t :=
  match sorted with
  | [] => [a]
  | b :: rest =>
      if Clip.startFrame a - Clip.startFrame b <=? 0
      then a :: b :: rest
      else b :: insertByStartFrame a rest
  end.

Fixpoint sortByStartFrame (clips : list Clip.t) : list Clip.t :=
  match clips with
  | [] => []
  | a :: rest => insertByStartFrame a (sortByStartFrame rest)
  end.

Definition overlapMessage (current next : Clip.t) : string :=
  ("Clip " ++ Clip.id current ++ " overlaps with clip " ++ Clip.id next)%string.

Definition invalidRangeMessage (id : string) (startFrame endFrame : Z)
  : string :=
  ("Item " ++ id ++ " has invalid frame range: " ++ numberToString startFrame
     ++ "-" ++ numberToString endFrame)%string.

Definition negativeStartMessage (id : string) (startFrame : Z) : string :=
  ("Item " ++ id ++ " has negative start frame: "
     ++ numberToString startFrame)%string.

(** The body of the loop [for (let i = 0; i < sortedClips.length - 1; i++)]
    at index [i]. *)
Definition overlapAt (sortedClips : list Clip.t) (i : nat) : list string :=
  match nth_error sortedClips i, nth_error sortedClips (S i) with
  | Some current, Some next =>
      if Clip.endFrame current >? Clip.startFrame next
      then [overlapMessage current next]
      else []
  | _, _ => []
  end.

(** The body of the [forEach] over [[...state.media, ...state.texts]]; an
    item is seen through its [id], [startFrame] and [endFrame]. *)
Definition rangeErrors (item : string * Z * Z) : list string :=
  let '(id, startFrame, endFrame) := item in
  (if startFrame >=? endFrame
   then [invalidRangeMessage id startFrame endFrame] else [])
  ++ (if startFrame <? 0 then [negativeStartMessage id startFrame] else []).

Definition clipItem (clip : Clip.t) : string * Z * Z :=
  (Clip.id clip, Clip.startFrame clip, Clip.endFrame clip).

Definition textItem (text : TextOverlay.t) : string * Z * Z :=
  (TextOverlay.id text, TextOverlay.startFrame text,
   TextOverlay.endFrame text).

Definition validateTimelineState (state : EditorState) : list string :=
  let sortedClips := sortByStartFrame (media state) in
  let errors :=
    flat_map (overlapAt sortedClips) (seq 0 (length sortedClips - 1)) in
  errors
  ++ flat_map rangeErrors
       (map clipItem (media state) ++ map textItem (texts state)).

(** ** Timeline items ([lib/types.ts], [lib/timelineOps.ts]) *)

Module TimelineItem.

Inductive kind : Type := clip | text.

Record t : Type := mk {
  id : string;
  type : kind;
  startFrame : Z;
  endFrame : Z;
  order : Z;
  data : Clip.t + TextOverlay.t
}.

End TimelineItem.

(** [[...array].sort(compareFn)]: the stable sort, by insertion; [a] goes
    before [b] when [compareFn(a, b) <= 0]. *)
Fixpoint insertSorted {A : Type} (compareFn : A -> A -> Z) (a : A)
  (sorted : list A) : list A :=
  match sorted with
  | [] => [a]
  | b :: rest =>
      if compareFn a b <=? 0
      then a :: b :: rest
      else b :: insertSorted compareFn a rest
  end.

Fixpoint sortArray {A : Type} (compareFn : A -> A -> Z) (array : list A)
  : list A :=
  match array with
  | [] => []
  | a :: rest => insertSorted compareFn a (sortArray compareFn rest)
  end.

Definition clipTimelineItem (clip : Clip.t) : TimelineItem.t :=
  TimelineItem.mk (Clip.id clip) TimelineItem.clip (Clip.startFrame clip)
    (Clip.endFrame clip) (Clip.order clip) (inl clip).

Definition textTimelineItem (text : TextOverlay.t) : TimelineItem.t :=
  TimelineItem.mk (TextOverlay.id text) TimelineItem.text
    (TextOverlay.startFrame text) (TextOverlay.endFrame text)
    0 (* Text overlays don't have order *) (inr text).

Definition getTimelineItems (state : EditorState) : list TimelineItem.t :=
  let clipItems := map clipTimelineItem (media state) in
  let textItems := map textTimelineItem (texts state) in
  sortArray
    (fun a b => TimelineItem.startFrame a - TimelineItem.startFrame b)
    (clipItems ++ textItems).

Definition getItemsAtFrame (state : EditorState) (frame : Z)
  : list TimelineItem.t :=
  filter
    (fun item =>
       (frame >=? TimelineItem.startFrame item)
       && (frame <? TimelineItem.endFrame item))
    (getTimelineItems state).

(** ** Partial updates ([Partial<Clip>], [Partial<TextOverlay>])

    A key of an update object is absent ([None]) or carries a value. *)

Module ClipUpdates.

Record t : Type := mk {
  id : option string;
  src : option string;
  startFrame : option Z;
  endFrame : option Z;
  order : option Z;
  type : option ClipType;
  position : option Position;
  scale : option Scale;
  rotation : option Q;
  volume : option Q;
  muted : option bool;
  trimStart : option Z;
  trimEnd : option Z
}.

(** [{startFrame: s, endFrame: e}] *)
Definition frames (s e : Z) : t :=
  mk None None (Some s) (Some e) None None None None None None None None
    None.

End ClipUpdates.

Module TextUpdates.

Record t : Type := mk {
  id : option string;
  text : option string;
  startFrame : option Z;
  endFrame : option Z;
  position : option Position;
  scale : option Scale;
  rotation : option Q;
  style : option TextStyle.t
}.

(** [{startFrame: s, endFrame: e}] *)
Definition frames (s e : Z) : t :=
  mk None None (Some s) (Some e) None None None None.

End TextUpdates.

(** The value of a required key after a spread of updates. *)
Definition override {A : Type} (old : A) (new : option A) : A :=
  match new with
  | Some v => v
  | None => old
  end.

(** The value of an optional key after a spread of updates. *)
Definition overrideOptional {A : Type} (old new : option A) : option A :=
  match new with
  | Some v => Some v
  | None => old
  end.

(** [{...clip, ...updates}] *)
Definition mergeClip (clip : Clip.t) (updates : ClipUpdates.t) : Clip.t :=
  Clip.mk
    (override (Clip.id clip) (ClipUpdates.id updates))
    (override (Clip.src clip) (ClipUpdates.src updates))
    (override (Clip.startFrame clip) (ClipUpdates.startFrame updates))
    (override (Clip.endFrame clip) (ClipUpdates.endFrame updates))
    (override (Clip.order clip) (ClipUpdates.order updates))
    (override (Clip.type clip) (ClipUpdates.type updates))
    (overrideOptional (Clip.position clip) (ClipUpdates.position updates))
    (overrideOptional (Clip.scale clip) (ClipUpdates.scale updates))
    (overrideOptional (Clip.rotation clip) (ClipUpdates.rotation updates))
    (overrideOptional (Clip.volume clip) (ClipUpdates.volume updates))
    (overrideOptional (Clip.muted clip) (ClipUpdates.muted updates))
    (overrideOptional (Clip.trimStart clip) (ClipUpdates.trimStart updates))
    (overrideOptional (Clip.trimEnd clip) (ClipUpdates.trimEnd updates)).

(** [{...text, ...updates}] *)
Definition mergeText (text : TextOverlay.t) (updates : TextUpdates.t)
  : TextOverlay.t :=
  TextOverlay.mk
    (override (TextOverlay.id text) (TextUpdates.id updates))
    (override (TextOverlay.text text) (TextUpdates.text updates))
    (override (TextOverlay.startFrame text) (TextUpdates.startFrame updates))
    (override (TextOverlay.endFrame text) (TextUpdates.endFrame updates))
    (override (TextOverlay.position text) (TextUpdates.position updates))
    (overrideOptional (TextOverlay.scale text) (TextUpdates.scale updates))
    (overrideOptional (TextOverlay.rotation text)
       (TextUpdates.rotation updates))
    (override (TextOverlay.style text) (TextUpdates.style updates)).

(** [updates.endFrame && updates.endFrame > duration]: an absent key and 0
    are falsy. *)
Definition endFrameBeyond (endFrame : option Z) (duration : Z) : bool :=
  match endFrame with
  | Some e => negb (e =? 0) && (e >? duration)
  | None => false
  end.

(** ** The editor store ([lib/store.ts])

    An action is the state transformer that the store's [set] runs;
    [Object.assign(state, newState)] leaves the store holding [newState]. *)

Module Store.

Definition addClip (state : EditorState) (clip : Clip.t) (newId : string)
  : EditorState :=
  let newState := addClip state clip newId in
  (* Auto-adjust timeline duration to fit new content *)
  autoAdjustTimelineDuration newState.

Definition addTextOverlay (state : EditorState) (text : TextOverlay.t)
  (newId : string) : EditorState :=
  let newState := addTextOverlay state text newId in
  autoAdjustTimelineDuration newState.

Definition removeItem (state : EditorState) (id : string) : EditorState :=
  removeItem state id.

Definition trimClip (state : EditorState) (clipId : string)
  (startFrame endFrame : Z) : EditorState :=
  let newState := trimClip state clipId startFrame endFrame in
  let maxFrame := Z.max startFrame endFrame in
  if maxFrame >? duration state
  then autoAdjustTimelineDuration newState
  else newState.

Definition trimTextOverlay (state : EditorState) (textId : string)
  (startFrame endFrame : Z) : EditorState :=
  let newState := trimTextOverlay state textId startFrame endFrame in
  let maxFrame := Z.max startFrame endFrame in
  if maxFrame >? duration state
  then autoAdjustTimelineDuration newState
  else newState.

(** The sync entry point: it does not touch [isPlaying]. *)
Definition setPlayhead (state : EditorState) (frame : Z) : EditorState :=
  withPlayhead state (Z.max 0 (Z.min frame (duration state))).

(** Manual seek (stops playback). *)
Definition seekTo (state : EditorState) (frame : Z) : EditorState :=
  withIsPlaying
    (withPlayhead state (Z.max 0 (Z.min frame (duration state))))
    false.

Definition togglePlayback (state : EditorState) : EditorState :=
  togglePlayback state.

Definition setDuration (state : EditorState) (duration : Z) : EditorState :=
  withDuration state (Z.max 0 duration).

Definition setFrameRate (state : EditorState) (frameRate : Z) : EditorState :=
  withFrameRate state (Z.max 1 frameRate).

Definition extendTimeline (state : EditorState) (additionalSeconds : Z)
  : EditorState :=
  let additionalFrames := additionalSeconds * frameRate state in
  withDuration state (duration state + additionalFrames).

Definition shrinkTimeline (state : EditorState) (secondsToRemove : Z)
  : EditorState :=
  let framesToRemove := secondsToRemove * frameRate state in
  let minDuration := getMinimumTimelineDuration state in
  let newDuration := Z.max (duration state - framesToRemove) minDuration in
  withDuration state newDuration.

Definition fitTimelineToContent (state : EditorState) : EditorState :=
  fitTimelineToContent state.

Definition autoAdjustTimeline (state : EditorState) : EditorState :=
  autoAdjustTimelineDuration state.

Definition setMasterVolume (state : EditorState) (volume : Q) : EditorState :=
  withMasterVolume state (Qmax 0 (Qmin 1 volume)).

Definition setClipVolume (state : EditorState) (clipId : string) (volume : Q)
  : EditorState :=
  withMedia state
    (updateFirst (fun c => String.eqb (Clip.id c) clipId)
       (fun clip => Clip.withVolume clip (Qmax 0 (Qmin 1 volume)))
       (media state)).

Definition resetState (_ : EditorState) : EditorState := DEFAULT_EDITOR_STATE.

Definition play (state : EditorState) : EditorState :=
  withIsPlaying state true.

Definition pause (state : EditorState) : EditorState :=
  withIsPlaying state false.


Definition updateClip (state : EditorState) (id : string)
  (updates : ClipUpdates.t) : EditorState :=
  let state :=
    withMedia state
      (map (fun clip =>
              if String.eqb (Clip.id clip) id
              then mergeClip clip updates else clip)
         (media state)) in
  (* Auto-adjust timeline if clip was moved/extended beyond current
     duration *)
  if endFrameBeyond (ClipUpdates.endFrame updates) (duration state)
  then autoAdjustTimelineDuration state
  else state.

Definition updateTextOverlay (state : EditorState) (id : string)
  (updates : TextUpdates.t) : EditorState :=
  let state :=
    withTexts state
      (map (fun text =>
              if String.eqb (TextOverlay.id text) id
              then mergeText text updates else text)
         (texts state)) in
  if endFrameBeyond (TextUpdates.endFrame updates) (duration state)
  then autoAdjustTimelineDuration state
  else state.

Definition toggleMute (state : EditorState) : EditorState :=
  withMuted state (negb (muted state)).

Definition toggleClipMute (state : EditorState) (clipId : string)
  : EditorState :=
  withMedia state
    (updateFirst (fun c => String.eqb (Clip.id c) clipId)
       Clip.toggledMuted (media state)).

(** [getSelectedItem]; [!state.selectedId] holds for [null] and for the
    empty string. *)
Definition getSelectedItem (state : EditorState)
  : option (Clip.t + TextOverlay.t) :=
  match selectedId state with
  | None => None
  | Some selected =>
      if String.eqb selected "" then None
      else
        match find (fun c => String.eqb (Clip.id c) selected) (media state)
        with
        | Some clip => Some (inl clip)
        | None =>
            match find (fun t => String.eqb (TextOverlay.id t) selected)
                    (texts state)
            with
            | Some text => Some (inr text)
            | None => None
            end
        end
  end.

Definition getTimelineDuration (state : EditorState) : Z :=
  calculateTimelineDuration state.

End Store.

(** ** The player listener ([components/Preview.tsx])

    One tick of [updateFromPlayer]: [isPlayingProp] is the [isPlaying] the
    effect closed over, [currentFrame] what [player.getCurrentFrame()]
    returned, [store] the state of the store when the tick runs.  A
    comparison with [undefined] is false. *)

Module Preview.

Definition updateFromPlayer (isPlayingProp : bool) (currentFrame : option Z)
  (store : EditorState) : EditorState :=
  if isPlayingProp then
    let currentState := store in
    let store1 :=
      match currentFrame with
      | Some frame =>
          if isPlaying currentState
             && (Z.abs (frame - playhead currentState) >? 2)
          then
            (* Only update store if there's a significant difference *)
            Store.setPlayhead store frame
          else store
      | None => store
      end in
    (* Check if we've reached the end *)
    match currentFrame with
    | Some frame =>
        if frame >=? duration currentState then Store.pause store1 else store1
    | None => store1
    end
  else store.

(** The items that the preview counts as visible at the playhead. *)
Definition visibleMedia (state : EditorState) : list Clip.t :=
  filter
    (fun clip =>
       (playhead state >=? Clip.startFrame clip)
       && (playhead state <? Clip.endFrame clip))
    (media state).

Definition visibleTexts (state : EditorState) : list TextOverlay.t :=
  filter
    (fun text =>
       (playhead state >=? TextOverlay.startFrame text)
       && (playhead state <? TextOverlay.endFrame text))
    (texts state).

End Preview.

(** ** The timeline item handlers ([components/ClipItem.tsx])

    The mouse position enters as the frame it was rounded to. *)

Module ClipItem.

Definition itemId (item : Clip.t + TextOverlay.t) : string :=
  match item with
  | inl clip => Clip.id clip
  | inr text => TextOverlay.id text
  end.

Definition itemStartFrame (item : Clip.t + TextOverlay.t) : Z :=
  match item with
  | inl clip => Clip.startFrame clip
  | inr text => TextOverlay.startFrame text
  end.

Definition itemEndFrame (item : Clip.t + TextOverlay.t) : Z :=
  match item with
  | inl clip => Clip.endFrame clip
  | inr text => TextOverlay.endFrame text
  end.


(** The [isResizing === 'left'] branch. *)
Definition resizeLeft (state : EditorState) (item : Clip.t + TextOverlay.t)
  (type : TimelineItem.kind) (mouseFrame : Z) : EditorState :=
  let newStartFrame :=
    Z.max 0 (Z.min mouseFrame (itemEndFrame item - 10)) in
  match type with
  | TimelineItem.clip =>
      Store.trimClip state (itemId item) newStartFrame (itemEndFrame item)
  | TimelineItem.text =>
      Store.trimTextOverlay state (itemId item) newStartFrame
        (itemEndFrame item)
  end.

(** The [isResizing === 'right'] branch. *)
Definition resizeRight (state : EditorState) (item : Clip.t + TextOverlay.t)
  (type : TimelineItem.kind) (mouseFrame : Z) : EditorState :=
  let newEndFrame := Z.max (itemStartFrame item + 10) mouseFrame in
  match type with
  | TimelineItem.clip =>
      Store.trimClip state (itemId item) (itemStartFrame item) newEndFrame
  | TimelineItem.text =>
      Store.trimTextOverlay state (itemId item) (itemStartFrame item)
        newEndFrame
  end.

End ClipItem.

(** ** The transport buttons ([components/Timeline.tsx]) *)

Module PlayControls.

Definition handlePlayPause (state : EditorState) : EditorState :=
  if isPlaying state then Store.pause state else Store.play state.

Definition handleSkipBack (state : EditorState) : EditorState :=
  Store.setPlayhead state (Z.max 0 (playhead state - frameRate state)).

Definition handleSkipForward (state : EditorState) : EditorState :=
  Store.setPlayhead state
    (Z.min (duration state) (playhead state + frameRate state)).

End PlayControls.

(** ** The render composition ([RootComposition])

    The clips and overlays drawn at a frame. *)

Module RootComposition.

Definition visibleClips (state : EditorState) (frame : Z) : list Clip.t :=
  filter
    (fun clip =>
       (frame >=? Clip.startFrame clip) && (frame <? Clip.endFrame clip))
    (media state).

Definition visibleTexts (state : EditorState) (frame : Z)
  : list TextOverlay.t :=
  filter
    (fun text =>
       (frame >=? TextOverlay.startFrame text)
       && (frame <? TextOverlay.endFrame text))
    (texts state).

End RootComposition.

(** ** Notions used to state the properties *)

(** The playhead invariant of the data model. *)
Definition playheadInRange (state : EditorState) : Prop :=
  0 <= playhead state <= duration state.

(** [Math.max(0, Math.min(frame, duration))] *)
Definition clampFrame (frame duration : Z) : Z :=
  Z.max 0 (Z.min frame duration).

(** Two states agree on every field but [duration]. *)
Definition sameExceptDuration (s s' : EditorState) : Prop :=
  media s' = media s /\ texts s' = texts s /\ selectedId s' = selectedId s
  /\ playhead s' = playhead s /\ frameRate s' = frameRate s
  /\ isPlaying s' = isPlaying s /\ masterVolume s' = masterVolume s
  /\ muted s' = muted s /\ zoom s' = zoom s
  /\ scrollPosition s' = scrollPosition s.

(** Two states agree on every field but [playhead]. *)
Definition sameExceptPlayhead (s s' : EditorState) : Prop :=
  media s' = media s /\ texts s' = texts s /\ selectedId s' = selectedId s
  /\ duration s' = duration s /\ frameRate s' = frameRate s
  /\ isPlaying s' = isPlaying s /\ masterVolume s' = masterVolume s
  /\ muted s' = muted s /\ zoom s' = zoom s
  /\ scrollPosition s' = scrollPosition s.

(** Every clip and overlay ends within the timeline. *)
Definition contentFits (state : EditorState) : Prop :=
  calculateTimelineDuration state <= duration state.

(** The [order] fields of the clips are 0..N-1 in list order. *)
Definition ordersContiguous (state : EditorState) : Prop :=
  map Clip.order (media state)
  = map Z.of_nat (seq 0 (length (media state))).

(** The order that a sort by start frame establishes on timeline items. *)
Definition itemStartsBefore (a b : TimelineItem.t) : Prop :=
  TimelineItem.startFrame a <= TimelineItem.startFrame b.

(** [b] starts no earlier than [a] ends. *)
Definition endsBefore (a b : Clip.t) : Prop :=
  Clip.endFrame a <= Clip.startFrame b.

(** The largest element of a list, when there is one. *)
Fixpoint listMax (l : list Z) : option Z :=
  match l with
  | [] => None
  | e :: l' =>
      match listMax l' with
      | None => Some e
      | Some m => Some (Z.max e m)
      end
  end.

(** The end frames of all clips and overlays. *)
Definition endFrames (state : EditorState) : list Z :=
  map Clip.endFrame (media state) ++ map TextOverlay.endFrame (texts state).

(** The content extent in the words of the specification: the maximum end
    frame over all clips and overlays, 0 when there is none. *)
Definition contentExtentSpec (state : EditorState) : Z :=
  match listMax (endFrames state) with
  | Some m => m
  | None => 0
  end.

(** [0; 1; ...; n-1] *)
Definition indices (n : nat) : list Z := map Z.of_nat (seq 0 n).

(** [c'] is [c] with at most its [order] changed. *)
Definition sameUpToOrder (c' c : Clip.t) : Prop :=
  c' = Clip.withOrder c (Clip.order c').

(** The [order] field of an element of a reordered [media] array. *)
Definition runtimeOrder (c : RuntimeClip) : Z :=
  match c with
  | ClipObj clip => Clip.order clip
  | OrderOnly order => order
  end.

(** The clips other than the one at position [i], in their order. *)
Definition without {A : Type} (i : nat) (l : list A) : list A :=
  firstn i l ++ skipn (S i) l.

(** [v] put at position [j] of [l]. *)
Definition insertAt {A : Type} (j : nat) (v : A) (l : list A) : list A :=
  firstn j l ++ v :: skipn j l.

(** The order that the sort of [validate] establishes. *)
Definition startsBefore (a b : Clip.t) : Prop :=
  Clip.startFrame a <= Clip.startFrame b.

(** Consecutive pairs of a list. *)
Fixpoint adjacentPairs {A : Type} (l : list A) : list (A * A) :=
  match l with
  | [] => []
  | a :: l' =>
      match l' with
      | [] => []
      | b :: _ => (a, b) :: adjacentPairs l'
      end
  end.

(** The diagnostics of [validate], as the specification lists them. *)
Inductive Diagnostic : Type :=
| Overlap (previousId nextId : string)
| InvalidRange (id : string) (startFrame endFrame : Z)
| NegativeStart (id : string) (startFrame : Z).

Definition render (d : Diagnostic) : string :=
  match d with
  | Overlap p n => ("Clip " ++ p ++ " overlaps with clip " ++ n)%string
  | InvalidRange i s e => invalidRangeMessage i s e
  | NegativeStart i s => negativeStartMessage i s
  end.

Definition overlapDiagnostics (clips : list Clip.t) : list Diagnostic :=
  map (fun p => Overlap (Clip.id (fst p)) (Clip.id (snd p)))
    (filter (fun p => Clip.startFrame (snd p) <? Clip.endFrame (fst p))
       (adjacentPairs (sortByStartFrame clips))).

Definition rangeDiagnostics (item : string * Z * Z) : list Diagnostic :=
  let '(id, s, e) := item in
  (if e <=? s then [InvalidRange id s e] else [])
  ++ (if s <? 0 then [NegativeStart id s] else []).

Definition expectedDiagnostics (state : EditorState) : list Diagnostic :=
  overlapDiagnostics (media state)
  ++ flat_map rangeDiagnostics (map clipItem (media state))
  ++ flat_map rangeDiagnostics (map textItem (texts state)).

(** ** Sample data *)

Definition sampleClip (id : string) (startFrame endFrame order : Z) : Clip.t :=
  Clip.mk id "test.mp4" startFrame endFrame order video
    None None None None None None None.

Definition sampleText (id : string) (startFrame endFrame : Z)
  : TextOverlay.t :=
  TextOverlay.mk id "Hello" startFrame endFrame (mkPosition 50 50) None None
    (TextStyle.mk 24 "Arial" "#ffffff" None 1 normal center).

(** One clip [10, 100) and one overlay [10, 100). *)
Definition trimState : EditorState :=
  withTexts (withMedia DEFAULT_EDITOR_STATE [sampleClip "clip1" 10 100 0])
    [sampleText "text1" 10 100].

(** [duration = 500], one clip ending at 100, [frameRate = 30], and the
    playhead at frame 400. *)
Definition fitState : EditorState :=
  withPlayhead
    (withDuration
       (withMedia DEFAULT_EDITOR_STATE [sampleClip "clip1" 0 100 0]) 500)
    400.

(** No clip, no overlay, and a selection that resolves to nothing. *)
Definition danglingState : EditorState :=
  withSelectedId DEFAULT_EDITOR_STATE (Some "non-existent-id").

(** Clips [0, 60) and [50, 100). *)
Definition overlapState : EditorState :=
  withMedia DEFAULT_EDITOR_STATE
    [sampleClip "clip1" 0 60 0; sampleClip "clip2" 50 100 1].

(** Three clips [c1; c2; c3]. *)
Definition threeClips : EditorState :=
  withMedia DEFAULT_EDITOR_STATE
    [sampleClip "clip1" 0 50 0; sampleClip "clip2" 50 100 1;
     sampleClip "clip3" 100 150 2].

(** * Properties *)

(** Reading a field of a rebuilt state. *)
Ltac read_fields :=
  unfold withMedia, withTexts, withSelectedId, withPlayhead, withFrameRate,
    withDuration, withIsPlaying, withMasterVolume, withZoom in *;
  cbn [media texts selectedId playhead frameRate duration isPlaying
       masterVolume muted zoom scrollPosition] in *.

(** ** Trimming *)

Section Trim.

Variables (state : EditorState) (targetId : string) (newStart newEnd : Z).

(** What [trimClip] leaves in a clip it matched. *)
Lemma trimClip_matched_frames (c' : Clip.t) :
  In c' (media (trimClip state targetId newStart newEnd)) ->
  Clip.id c' = targetId ->
  Clip.startFrame c' = Z.max 0 newStart
  /\ Clip.endFrame c' = Z.max (newStart + 1) newEnd.
Proof.
  unfold trimClip; simpl; rewrite in_map_iff.
  intros [c [Hc _]] Hid; revert Hc.
  destruct (String.eqb (Clip.id c) targetId) eqn:E; intros <-.
  - split; reflexivity.
  - apply String.eqb_neq in E; contradiction.
Qed.

(** With a start that needs no clamping the one-frame floor is the one the
    specification describes, and the range is well formed. *)
Lemma trimClip_nonnegative_start (c' : Clip.t) :
  0 <= newStart ->
  In c' (media (trimClip state targetId newStart newEnd)) ->
  Clip.id c' = targetId ->
  Clip.startFrame c' = Z.max 0 newStart
  /\ Clip.endFrame c' = Z.max (Clip.startFrame c' + 1) newEnd
  /\ 0 <= Clip.startFrame c' < Clip.endFrame c'.
Proof.
  intros Hs Hin Hid.
  destruct (trimClip_matched_frames c' Hin Hid) as [-> ->]; lia.
Qed.

Lemma trimTextOverlay_matched_frames (t' : TextOverlay.t) :
  In t' (texts (trimTextOverlay state targetId newStart newEnd)) ->
  TextOverlay.id t' = targetId ->
  TextOverlay.startFrame t' = Z.max 0 newStart
  /\ TextOverlay.endFrame t' = Z.max (newStart + 1) newEnd.
Proof.
  unfold trimTextOverlay; simpl; rewrite in_map_iff.
  intros [t [Ht _]] Hid; revert Ht.
  destruct (String.eqb (TextOverlay.id t) targetId) eqn:E; intros <-.
  - split; reflexivity.
  - apply String.eqb_neq in E; contradiction.
Qed.

End Trim.

(** C1.  The one-frame floor of [trimClip] and [trimTextOverlay] is taken
    from the raw [newStartFrame], not from the clamped start: trimming the
    clip [clip1] (and the overlay [text1]) to [newStart = -5], [newEnd = 0]
    leaves the start at 0 and the end at 0, where the floor on the clamped
    start would give the end [max (0 + 1) 0 = 1].  The resulting range is
    empty, and [validateTimelineState] reports it as an invalid frame
    range. *)
Theorem trim_floor_uses_raw_start :
  let s' := trimClip trimState "clip1" (-5) 0 in
  let t' := trimTextOverlay trimState "text1" (-5) 0 in
  media s' = [sampleClip "clip1" 0 0 0]
  /\ texts t' = [sampleText "text1" 0 0]
  /\ Z.max (Z.max 0 (-5) + 1) 0 = 1
  /\ ~ (forall c, In c (media s') ->
          0 <= Clip.startFrame c < Clip.endFrame c)
  /\ In "Item clip1 has invalid frame range: 0-0" (validateTimelineState s').
Proof.
  cbv zeta. repeat split; try reflexivity.
  - intros H.
    assert (Hc : 0 <= Clip.startFrame (sampleClip "clip1" 0 0 0)
                 < Clip.endFrame (sampleClip "clip1" 0 0 0))
      by (apply H; left; reflexivity).
    simpl in Hc; lia.
  - left; reflexivity.
Qed.

(** ** The user seek *)

Lemma clampFrame_bounds (frame duration : Z) :
  0 <= duration -> 0 <= clampFrame frame duration <= duration.
Proof. unfold clampFrame; lia. Qed.

Lemma clampFrame_cases (frame duration : Z) :
  0 <= duration ->
  (frame <= 0 -> clampFrame frame duration = 0)
  /\ (0 <= frame <= duration -> clampFrame frame duration = frame)
  /\ (duration <= frame -> clampFrame frame duration = duration).
Proof. unfold clampFrame; lia. Qed.

(** C6.  For every state (of a duration that is not negative, as the data
    model has it) and every frame [f], negative and huge ones included,
    [setPlayhead state f] has its playhead at [f] clamped into
    [0, duration], hence within that range, and is not playing; the store's
    [seekTo] is the same transformer. *)
Theorem setPlayhead_clamps_and_stops (state : EditorState) (f : Z)
  (Hduration : 0 <= duration state) :
  playhead (setPlayhead state f) = clampFrame f (duration state)
  /\ 0 <= playhead (setPlayhead state f) <= duration (setPlayhead state f)
  /\ (f <= 0 -> playhead (setPlayhead state f) = 0)
  /\ (0 <= f <= duration state -> playhead (setPlayhead state f) = f)
  /\ (duration state <= f -> playhead (setPlayhead state f) = duration state)
  /\ isPlaying (setPlayhead state f) = false
  /\ Store.seekTo state f = setPlayhead state f.
Proof.
  unfold setPlayhead, Store.seekTo, clampFrame; simpl.
  repeat split; try lia.
Qed.

Lemma setPlayhead_clamps_and_stops_witness :
  0 <= duration DEFAULT_EDITOR_STATE
  /\ playhead (setPlayhead DEFAULT_EDITOR_STATE (-50)) = 0
  /\ playhead (setPlayhead DEFAULT_EDITOR_STATE 99999) = 900
  /\ isPlaying (setPlayhead DEFAULT_EDITOR_STATE 99999) = false.
Proof.
  assert (H : 0 <= duration DEFAULT_EDITOR_STATE) by (simpl; lia).
  split; [exact H|].
  pose proof (setPlayhead_clamps_and_stops DEFAULT_EDITOR_STATE (-50) H)
    as (_ & _ & Hneg & _).
  pose proof (setPlayhead_clamps_and_stops DEFAULT_EDITOR_STATE 99999 H)
    as (_ & _ & _ & _ & Hbig & Hstop & _).
  split; [apply Hneg; lia|].
  split; [apply Hbig; simpl; lia|exact Hstop].
Defined.

(** ** The sync from the player clock *)

(** C7.  The store's [setPlayhead] moves the playhead to the frame clamped
    into [0, duration] and changes no other field, [isPlaying] in particular:
    a playing store keeps playing.  One tick of the player listener moves
    the playhead only through that action, and only when the player reported
    a frame, the store is playing, and the frame is more than 2 frames away
    from the playhead. *)
Theorem sync_keeps_playing (state : EditorState) (frame : Z)
  (Hduration : 0 <= duration state) :
  playhead (Store.setPlayhead state frame) = clampFrame frame (duration state)
  /\ 0 <= playhead (Store.setPlayhead state frame) <= duration state
  /\ isPlaying (Store.setPlayhead state frame) = isPlaying state
  /\ sameExceptPlayhead state (Store.setPlayhead state frame)
  /\ forall (isPlayingProp : bool) (currentFrame : option Z),
       playhead (Preview.updateFromPlayer isPlayingProp currentFrame state)
       = match currentFrame with
         | Some reported =>
             if isPlayingProp && isPlaying state
                && (2 <? Z.abs (reported - playhead state))
             then clampFrame reported (duration state)
             else playhead state
         | None => playhead state
         end.
Proof.
  split; [reflexivity|].
  split; [apply clampFrame_bounds; assumption|].
  split; [reflexivity|].
  split; [unfold sameExceptPlayhead; simpl; tauto|].
  intros p [reported|]; unfold Preview.updateFromPlayer.
  - destruct p; simpl; [|reflexivity].
    rewrite Z.gtb_ltb.
    destruct (isPlaying state), (2 <? Z.abs (reported - playhead state));
      simpl; destruct (reported >=? duration state); reflexivity.
  - destruct p; reflexivity.
Qed.

Lemma sync_keeps_playing_witness :
  0 <= duration (Store.play DEFAULT_EDITOR_STATE)
  /\ isPlaying (Store.setPlayhead (Store.play DEFAULT_EDITOR_STATE) 150)
     = true
  /\ playhead (Store.setPlayhead (Store.play DEFAULT_EDITOR_STATE) 150) = 150
  /\ playhead (Preview.updateFromPlayer true (Some 2)
                 (Store.play DEFAULT_EDITOR_STATE)) = 0
  /\ playhead (Preview.updateFromPlayer true (Some 3)
                 (Store.play DEFAULT_EDITOR_STATE)) = 3.
Proof.
  assert (H : 0 <= duration (Store.play DEFAULT_EDITOR_STATE))
    by (simpl; lia).
  split; [exact H|].
  pose proof (sync_keeps_playing (Store.play DEFAULT_EDITOR_STATE) 150 H)
    as (Hp & _ & Hplaying & _ & Htick).
  split; [rewrite Hplaying; reflexivity|].
  split; [rewrite Hp; reflexivity|].
  split; rewrite Htick; reflexivity.
Defined.

(** ** Duration policy *)

Lemma listMax_spec (l : list Z) (m : Z) :
  listMax l = Some m -> In m l /\ Forall (fun e => e <= m) l.
Proof.
  revert m; induction l as [|e l IH]; simpl; intros m; [discriminate|].
  destruct (listMax l) as [m'|] eqn:E.
  - intros [= <-]. destruct (IH m' eq_refl) as [Hin Hle]. split.
    + destruct (Z.max_spec e m') as [[_ ->]|[_ ->]]; auto.
    + constructor; [lia|].
      eapply Forall_impl; [|exact Hle]. simpl; intros; lia.
  - intros [= <-]. destruct l; [|simpl in E; destruct (listMax l); discriminate].
    split; [left; reflexivity|constructor; [lia|constructor]].
Qed.

Lemma listMax_none (l : list Z) : listMax l = None -> l = [].
Proof.
  destruct l as [|e l]; [reflexivity|].
  simpl; destruct (listMax l); discriminate.
Qed.

Lemma maxWithZero_listMax (l : list Z) :
  maxWithZero l = match listMax l with
                  | Some m => Z.max m 0
                  | None => 0
                  end.
Proof.
  unfold maxWithZero.
  induction l as [|e l IH]; simpl; [reflexivity|].
  rewrite IH; destruct (listMax l); lia.
Qed.

Lemma maxWithZero_upper (l : list Z) :
  0 <= maxWithZero l /\ Forall (fun e => e <= maxWithZero l) l.
Proof.
  unfold maxWithZero.
  induction l as [|e l [IH0 IH]]; simpl; [split; [lia|constructor]|].
  split; [lia|].
  constructor; [lia|].
  eapply Forall_impl; [|exact IH].
  simpl; intros; lia.
Qed.

Lemma calculateTimelineDuration_spec (state : EditorState) :
  calculateTimelineDuration state = Z.max (contentExtentSpec state) 0.
Proof.
  unfold calculateTimelineDuration, contentExtentSpec, endFrames.
  rewrite maxWithZero_listMax.
  destruct (listMax _); lia.
Qed.

(** C3.  [autoAdjustTimelineDuration] sets the duration to the larger of the
    optimal duration and the current one, where the optimal duration is the
    larger of content extent plus two seconds of frames and ten seconds of
    frames; so the duration never decreases, and no other field changes. *)
Theorem autoAdjustTimelineDuration_ratchet (state : EditorState) :
  duration (autoAdjustTimelineDuration state)
  = Z.max (getOptimalTimelineDuration state) (duration state)
  /\ getOptimalTimelineDuration state
     = Z.max (calculateTimelineDuration state + 2 * frameRate state)
         (10 * frameRate state)
  /\ duration state <= duration (autoAdjustTimelineDuration state)
  /\ sameExceptDuration state (autoAdjustTimelineDuration state).
Proof.
  unfold autoAdjustTimelineDuration, getOptimalTimelineDuration,
    getOptimalTimelineDurationWith, getMinimumTimelineDuration,
    sameExceptDuration.
  read_fields.
  generalize (calculateTimelineDuration state); intros extent.
  repeat split; try reflexivity; lia.
Qed.

(** C4.  [fitTimelineToContent] sets the duration to exactly the larger of
    the content extent and five seconds of frames, and changes nothing else.
    The content extent that the code computes is the maximum end frame over
    all clips and overlays taken together with 0: it bounds every end frame,
    it is 0 when there is no item, and with a frame rate that is not
    negative the duration is the larger of the maximum end frame and five
    seconds of frames.  The operation can shrink the duration: with
    [duration = 500], one clip ending at 100 and [frameRate = 30] it yields
    150. *)
Theorem fitTimelineToContent_duration (state : EditorState) :
  duration (fitTimelineToContent state)
  = Z.max (calculateTimelineDuration state) (5 * frameRate state)
  /\ sameExceptDuration state (fitTimelineToContent state)
  /\ calculateTimelineDuration state = Z.max (contentExtentSpec state) 0
  /\ Forall (fun e => e <= calculateTimelineDuration state) (endFrames state)
  /\ (endFrames state = [] -> calculateTimelineDuration state = 0)
  /\ (0 <= frameRate state ->
      duration (fitTimelineToContent state)
      = Z.max (contentExtentSpec state) (5 * frameRate state))
  /\ (duration fitState = 500
      /\ duration (fitTimelineToContent fitState) = 150).
Proof.
  split;
    [unfold fitTimelineToContent, getMinimumTimelineDuration; read_fields; lia|].
  split; [unfold sameExceptDuration; simpl; tauto|].
  split; [apply calculateTimelineDuration_spec|].
  split; [apply (maxWithZero_upper (endFrames state))|].
  split.
  { unfold calculateTimelineDuration; fold (endFrames state).
    intros ->; reflexivity. }
  split; [|split; reflexivity].
  intros Hrate.
  unfold fitTimelineToContent, getMinimumTimelineDuration; read_fields.
  rewrite calculateTimelineDuration_spec; lia.
Qed.

Lemma fitTimelineToContent_duration_witness :
  0 <= frameRate fitState
  /\ duration (fitTimelineToContent fitState)
     = Z.max (contentExtentSpec fitState) (5 * frameRate fitState)
  /\ endFrames DEFAULT_EDITOR_STATE = []
  /\ calculateTimelineDuration DEFAULT_EDITOR_STATE = 0.
Proof.
  assert (H : 0 <= frameRate fitState) by (simpl; lia).
  split; [exact H|].
  split.
  - exact (proj1 (proj2 (proj2 (proj2 (proj2 (proj2
             (fitTimelineToContent_duration fitState)))))) H).
  - split; [reflexivity|].
    exact (proj1 (proj2 (proj2 (proj2 (proj2
             (fitTimelineToContent_duration DEFAULT_EDITOR_STATE)))))
             eq_refl).
Defined.

(** ** The playhead invariant *)

Section PlayheadInvariant.

Variable state : EditorState.
Hypothesis Hrange : playheadInRange state.



End PlayheadInvariant.




(** ** Arrays: [map] with an index, [filter], [find] *)

Lemma mapiFrom_length {A B : Type} (f : A -> Z -> B) (l : list A) :
  forall k, length (mapiFrom f k l) = length l.
Proof. induction l as [|v l IH]; simpl; intros k; [|rewrite IH]; reflexivity. Qed.

Lemma mapiFrom_app {A B : Type} (f : A -> Z -> B) (l1 l2 : list A) :
  forall k,
    mapiFrom f k (l1 ++ l2)
    = mapiFrom f k l1 ++ mapiFrom f (k + Z.of_nat (length l1)) l2.
Proof.
  induction l1 as [|v l1 IH]; intros k.
  - simpl; rewrite Z.add_0_r; reflexivity.
  - cbn [app mapiFrom length]. rewrite IH. do 3 f_equal. lia.
Qed.

Lemma indices_from (k : Z) (n : nat) :
  map (fun i => k + Z.of_nat i) (seq 1 n)
  = map (fun i => k + 1 + Z.of_nat i) (seq 0 n).
Proof.
  rewrite <- seq_shift, map_map.
  apply map_ext; intros i; lia.
Qed.

Lemma mapiFrom_withOrder_orders (l : list Clip.t) :
  forall k,
    map Clip.order (mapiFrom Clip.withOrder k l)
    = map (fun i => k + Z.of_nat i) (seq 0 (length l)).
Proof.
  induction l as [|c l IH]; intros k; [reflexivity|].
  cbn [mapiFrom map length seq]. rewrite IH, indices_from.
  f_equal. simpl; lia.
Qed.

Lemma mapiFrom_spread_orders (l : list (option Clip.t)) :
  forall k,
    map runtimeOrder (mapiFrom spreadWithOrder k l)
    = map (fun i => k + Z.of_nat i) (seq 0 (length l)).
Proof.
  induction l as [|c l IH]; intros k; [reflexivity|].
  cbn [mapiFrom map length seq]. rewrite IH, indices_from.
  f_equal. destruct c; simpl; lia.
Qed.

Lemma mapiFrom_spread_Some (l : list Clip.t) :
  forall k,
    mapiFrom spreadWithOrder k (map Some l)
    = map ClipObj (mapiFrom Clip.withOrder k l).
Proof.
  induction l as [|c l IH]; intros k; [reflexivity|].
  simpl; rewrite IH; reflexivity.
Qed.

Lemma mapiFrom_withOrder_same (l : list Clip.t) :
  forall k, Forall2 sameUpToOrder (mapiFrom Clip.withOrder k l) l.
Proof.
  induction l as [|c l IH]; intros k; simpl; constructor.
  - reflexivity.
  - apply IH.
Qed.

Lemma withOrder_own_order (c : Clip.t) : Clip.withOrder c (Clip.order c) = c.
Proof. destruct c; reflexivity. Qed.

(** Renumbering clips that are numbered already changes nothing. *)
Lemma mapiFrom_withOrder_id (l : list Clip.t) :
  forall k,
    map Clip.order l = map (fun i => k + Z.of_nat i) (seq 0 (length l)) ->
    mapiFrom Clip.withOrder k l = l.
Proof.
  induction l as [|c l IH]; intros k; [reflexivity|].
  cbn [mapiFrom map length seq]. rewrite indices_from.
  intros [= Hc Hl]. rewrite (IH _ Hl). f_equal.
  replace k with (Clip.order c) by lia. apply withOrder_own_order.
Qed.

Lemma indices_offset (n : nat) :
  indices n = map (fun i => 0 + Z.of_nat i) (seq 0 n).
Proof. reflexivity. Qed.

Lemma filter_all {A : Type} (p : A -> bool) (l : list A) :
  (forall v, In v l -> p v = true) -> filter p l = l.
Proof.
  induction l as [|v l IH]; intros H; [reflexivity|].
  simpl; rewrite (H v (or_introl eq_refl)), IH; [reflexivity|].
  intros w Hw; apply H; right; exact Hw.
Qed.

Lemma map_unmatched {A : Type} (p : A -> bool) (f : A -> A) (l : list A) :
  (forall v, In v l -> p v = false) ->
  map (fun v => if p v then f v else v) l = l.
Proof.
  induction l as [|v l IH]; intros H; [reflexivity|].
  simpl; rewrite (H v (or_introl eq_refl)), IH; [reflexivity|].
  intros w Hw; apply H; right; exact Hw.
Qed.

Lemma updateFirst_unmatched {A : Type} (p : A -> bool) (f : A -> A)
  (l : list A) :
  (forall v, In v l -> p v = false) -> updateFirst p f l = l.
Proof.
  induction l as [|v l IH]; intros H; [reflexivity|].
  simpl; rewrite (H v (or_introl eq_refl)), IH; [reflexivity|].
  intros w Hw; apply H; right; exact Hw.
Qed.

Lemma selectedIs_true (sel : option string) (id : string) :
  selectedIs sel id = true <-> sel = Some id.
Proof.
  destruct sel as [s|]; simpl.
  - rewrite String.eqb_eq; split; [intros ->; reflexivity|intros [= ->]; reflexivity].
  - split; discriminate.
Qed.

(** ** Ids that match nothing *)

Section Unmatched.

Variables (state : EditorState) (id : string).
Hypothesis Hclips : forall c, In c (media state) -> Clip.id c <> id.
Hypothesis Htexts : forall t, In t (texts state) -> TextOverlay.id t <> id.

Lemma clip_unmatched (c : Clip.t) :
  In c (media state) -> String.eqb (Clip.id c) id = false.
Proof. intros H; apply String.eqb_neq, Hclips, H. Qed.

Lemma text_unmatched (t : TextOverlay.t) :
  In t (texts state) -> String.eqb (TextOverlay.id t) id = false.
Proof. intros H; apply String.eqb_neq, Htexts, H. Qed.

Lemma removeItem_unmatched :
  removeItem state id
  = withSelectedId
      (withMedia state (mapi Clip.withOrder (media state)))
      (if selectedIs (selectedId state) id then None else selectedId state).
Proof.
  unfold removeItem, withSelectedId, withMedia; cbn [media texts selectedId
    playhead frameRate duration isPlaying masterVolume muted zoom
    scrollPosition].
  rewrite !filter_all; [reflexivity| |].
  - intros t Ht; rewrite (text_unmatched t Ht); reflexivity.
  - intros c Hc; rewrite (clip_unmatched c Hc); reflexivity.
Qed.

End Unmatched.

(** C5, as the code has it.  For an id that matches no clip and no overlay,
    [trimClip], [trimTextOverlay] and the store's [setClipVolume] return the
    input state.  [removeItem] keeps every clip and overlay and every other
    field, but it clears the selection when the selection is that id, and it
    renumbers the [order] fields of the clips; it returns the input state
    when the selection is not that id and the [order] fields are 0..N-1
    already. *)
Theorem unmatched_id_is_noop (state : EditorState) (id : string)
  (newStart newEnd : Z) (volume : Q)
  (Hclips : forall c, In c (media state) -> Clip.id c <> id)
  (Htexts : forall t, In t (texts state) -> TextOverlay.id t <> id) :
  trimClip state id newStart newEnd = state
  /\ trimTextOverlay state id newStart newEnd = state
  /\ Store.setClipVolume state id volume = state
  /\ removeItem state id
     = withSelectedId
         (withMedia state (mapi Clip.withOrder (media state)))
         (if selectedIs (selectedId state) id
          then None else selectedId state)
  /\ (selectedId state <> Some id ->
      map Clip.order (media state) = indices (length (media state)) ->
      removeItem state id = state).
Proof.
  split.
  { unfold trimClip.
    rewrite (map_unmatched (fun c => String.eqb (Clip.id c) id)).
    - destruct state; reflexivity.
    - apply clip_unmatched, Hclips. }
  split.
  { unfold trimTextOverlay.
    rewrite (map_unmatched (fun t => String.eqb (TextOverlay.id t) id)).
    - destruct state; reflexivity.
    - apply text_unmatched, Htexts. }
  split.
  { unfold Store.setClipVolume.
    rewrite updateFirst_unmatched.
    - destruct state; reflexivity.
    - apply clip_unmatched, Hclips. }
  split; [apply removeItem_unmatched; assumption|].
  intros Hsel Horder.
  rewrite removeItem_unmatched by assumption.
  unfold mapi; rewrite mapiFrom_withOrder_id by exact Horder.
  destruct (selectedIs (selectedId state) id) eqn:E.
  - apply selectedIs_true in E; contradiction.
  - destruct state; reflexivity.
Qed.

Lemma unmatched_id_is_noop_witness :
  (forall c, In c (media threeClips) -> Clip.id c <> "non-existent-id")
  /\ (forall t, In t (texts threeClips) ->
        TextOverlay.id t <> "non-existent-id")
  /\ trimClip threeClips "non-existent-id" 5 20 = threeClips
  /\ Store.setClipVolume threeClips "non-existent-id" (1 # 2) = threeClips
  /\ removeItem threeClips "non-existent-id" = threeClips.
Proof.
  assert (Hc : forall c, In c (media threeClips) ->
                 Clip.id c <> "non-existent-id").
  { simpl; intros c [<-|[<-|[<-|[]]]]; discriminate. }
  assert (Ht : forall t, In t (texts threeClips) ->
                 TextOverlay.id t <> "non-existent-id").
  { simpl; intros t []. }
  split; [exact Hc|]. split; [exact Ht|].
  pose proof (unmatched_id_is_noop threeClips "non-existent-id" 5 20 (1 # 2)
                Hc Ht) as (Htrim & _ & Hvol & _ & Hrm).
  split; [exact Htrim|]. split; [exact Hvol|].
  apply Hrm; [discriminate|reflexivity].
Defined.

(** C5, as stated, fails for [removeItem]: with a selection that resolves to
    nothing, removing that id matches no clip and no overlay and still
    clears the selection. *)
Lemma removeItem_unmatched_clears_selection :
  (forall c, In c (media danglingState) -> Clip.id c <> "non-existent-id")
  /\ (forall t, In t (texts danglingState) ->
        TextOverlay.id t <> "non-existent-id")
  /\ selectedId danglingState = Some "non-existent-id"
  /\ selectedId (removeItem danglingState "non-existent-id") = None
  /\ removeItem danglingState "non-existent-id" <> danglingState.
Proof.
  split; [intros c []|]. split; [intros t []|].
  split; [reflexivity|]. split; [reflexivity|].
  intros H; apply (f_equal selectedId) in H; discriminate H.
Qed.

(** ** Arrays: [splice] *)

Lemma relativeStart_le (len : nat) (start : Z) :
  (relativeStart len start <= len)%nat.
Proof. unfold relativeStart; destruct (start <? 0) eqn:E; lia. Qed.

Lemma relativeStart_in_range (len : nat) (start : Z) :
  0 <= start <= Z.of_nat len -> relativeStart len start = Z.to_nat start.
Proof. unfold relativeStart; destruct (start <? 0) eqn:E; lia. Qed.

Lemma relativeStart_lt_iff (len : nat) (start : Z) :
  (relativeStart len start < len)%nat
  <-> start < Z.of_nat len /\ (0 < len)%nat.
Proof. unfold relativeStart; destruct (start <? 0) eqn:E; lia. Qed.

Lemma nth_error_split_at {A : Type} (l : list A) :
  forall (k : nat) (m : A),
    nth_error l k = Some m ->
    l = firstn k l ++ m :: skipn (S k) l /\ firstn 1 (skipn k l) = [m].
Proof.
  induction l as [|v l IH]; intros [|k] m; simpl; try discriminate.
  - intros [= ->]; split; reflexivity.
  - intros H; destruct (IH k m H) as [Hl Hf]; split.
    + f_equal; exact Hl.
    + exact Hf.
Qed.

Lemma without_length {A : Type} (l : list A) (k : nat) :
  (k < length l)%nat -> length (without k l) = pred (length l).
Proof.
  intros H; unfold without.
  rewrite length_app, length_firstn, length_skipn; lia.
Qed.

Lemma without_map {A B : Type} (f : A -> B) (k : nat) (l : list A) :
  without k (map f l) = map f (without k l).
Proof.
  unfold without. rewrite firstn_map, skipn_map, map_app; reflexivity.
Qed.

Lemma insertAt_length {A : Type} (j : nat) (v : A) (l : list A) :
  length (insertAt j v l) = S (length l).
Proof.
  unfold insertAt. rewrite length_app; simpl.
  rewrite <- (firstn_skipn j l) at 3. rewrite length_app; lia.
Qed.

Lemma without_perm {A : Type} (l : list A) (k : nat) (m : A) :
  nth_error l k = Some m -> Permutation (m :: without k l) l.
Proof.
  intros H; destruct (nth_error_split_at l k m H) as [Hl _].
  rewrite Hl at 2. apply Permutation_middle.
Qed.

Lemma insertAt_perm {A : Type} (j : nat) (v : A) (l : list A) :
  Permutation (insertAt j v l) (v :: l).
Proof.
  unfold insertAt. rewrite <- (firstn_skipn j l) at 3.
  symmetry; apply Permutation_middle.
Qed.

Lemma insertAt_map {A B : Type} (f : A -> B) (j : nat) (v : A) (l : list A) :
  insertAt j (f v) (map f l) = map f (insertAt j v l).
Proof.
  unfold insertAt. rewrite firstn_map, skipn_map, map_app; reflexivity.
Qed.

(** Deleting one element where there is one. *)
Lemma splice_delete_one {A : Type} (l : list A) (start : Z) (m : A) :
  nth_error l (relativeStart (length l) start) = Some m ->
  splice l start 1 [] = ([m], without (relativeStart (length l) start) l).
Proof.
  intros H. unfold splice, without.
  set (k := relativeStart (length l) start) in *.
  assert (Hk : (k < length l)%nat) by (apply nth_error_Some; congruence).
  replace (Z.to_nat (Z.min (Z.max 1 0) (Z.of_nat (length l - k))))
    with 1%nat by lia.
  destruct (nth_error_split_at l k m H) as [_ ->].
  replace (k + 1)%nat with (S k) by lia. reflexivity.
Qed.

(** Deleting one element past the end deletes nothing. *)
Lemma splice_delete_none {A : Type} (l : list A) (start : Z) :
  (length l <= relativeStart (length l) start)%nat ->
  splice l start 1 [] = ([], l).
Proof.
  intros H. unfold splice.
  set (k := relativeStart (length l) start) in *.
  replace (Z.to_nat (Z.min (Z.max 1 0) (Z.of_nat (length l - k))))
    with 0%nat by lia.
  rewrite Nat.add_0_r, firstn_skipn. reflexivity.
Qed.

Lemma splice_insert {A : Type} (l : list A) (start : Z) (v : A) :
  splice l start 0 [v]
  = ([], insertAt (relativeStart (length l) start) v l).
Proof.
  unfold splice, insertAt.
  set (k := relativeStart (length l) start).
  replace (Z.to_nat (Z.min (Z.max 0 0) (Z.of_nat (length l - k))))
    with 0%nat by lia.
  rewrite Nat.add_0_r. reflexivity.
Qed.

(** ** Reordering *)

Section Reorder.

Variables (state : EditorState) (fromIndex toIndex : Z).

(** [fromIndex] designates a clip: it is moved. *)
Lemma reorderClips_moves (moved : Clip.t) :
  nth_error (media state) (relativeStart (length (media state)) fromIndex)
  = Some moved ->
  media (reorderClips state fromIndex toIndex)
  = map ClipObj
      (mapi Clip.withOrder
         (insertAt (relativeStart (pred (length (media state))) toIndex)
            moved
            (without (relativeStart (length (media state)) fromIndex)
               (media state)))).
Proof.
  intros H. unfold reorderClips.
  assert (Hk : (relativeStart (length (media state)) fromIndex
                < length (media state))%nat)
    by (apply nth_error_Some; congruence).
  rewrite (splice_delete_one (map Some (media state)) fromIndex (Some moved)).
  - rewrite splice_insert. cbn [firstOrUndefined]. read_fields.
    rewrite length_map.
    rewrite without_map, length_map, without_length by exact Hk.
    rewrite (insertAt_map Some). apply mapiFrom_spread_Some.
  - rewrite length_map, nth_error_map, H. reflexivity.
Qed.

(** [fromIndex] designates nothing: [undefined] is inserted. *)
Lemma reorderClips_inserts_undefined :
  (length (media state)
   <= relativeStart (length (media state)) fromIndex)%nat ->
  media (reorderClips state fromIndex toIndex)
  = mapi spreadWithOrder
      (insertAt (relativeStart (length (media state)) toIndex) None
         (map Some (media state))).
Proof.
  intros H. unfold reorderClips.
  rewrite splice_delete_none by (rewrite length_map; exact H).
  rewrite splice_insert. cbn [firstOrUndefined]. read_fields.
  rewrite length_map. reflexivity.
Qed.

(** The [order] fields after a reorder count up from 0, whatever the
    indices. *)
Lemma reorderClips_orders :
  map runtimeOrder (media (reorderClips state fromIndex toIndex))
  = indices (length (media (reorderClips state fromIndex toIndex))).
Proof.
  unfold reorderClips.
  destruct (splice (map Some (media state)) fromIndex 1 []) as [removed nm].
  destruct (splice nm toIndex 0 [firstOrUndefined removed]) as [_x nm'].
  read_fields. unfold mapi.
  rewrite mapiFrom_spread_orders, mapiFrom_length. reflexivity.
Qed.

End Reorder.

Lemma without_cons_S {A : Type} (j : nat) (v : A) (l : list A) :
  without (S j) (v :: l) = v :: without j l.
Proof. reflexivity. Qed.

Lemma without_insertAt {A : Type} (l : list A) :
  forall (j : nat) (v : A),
    (j <= length l)%nat -> without j (insertAt j v l) = l.
Proof.
  induction l as [|w l IH]; intros [|j] v Hj; simpl in Hj; try lia.
  - reflexivity.
  - reflexivity.
  - change (insertAt (S j) v (w :: l)) with (w :: insertAt j v l).
    rewrite without_cons_S, IH by lia. reflexivity.
Qed.

Lemma Forall2_without {A B : Type} (R : A -> B -> Prop) (l1 : list A)
  (l2 : list B) :
  Forall2 R l1 l2 -> forall j, Forall2 R (without j l1) (without j l2).
Proof.
  induction 1 as [|a b l1 l2 Hab Hl IH]; intros [|j].
  - constructor.
  - constructor.
  - exact Hl.
  - rewrite !without_cons_S. constructor; [exact Hab|apply IH].
Qed.

Lemma removeItem_media (state : EditorState) (id : string) :
  media (removeItem state id)
  = mapi Clip.withOrder
      (filter (fun clip => negb (String.eqb (Clip.id clip) id))
         (media state)).
Proof. reflexivity. Qed.

(** C8.  After [removeItem], for any id, the [order] fields of the clips
    that remain are 0..N-1 in list order, and the clips that remain are the
    clips with another id, in their order and changed in nothing but
    [order]; the selection is cleared when it was that id and kept
    otherwise.  After [reorderClips] with both indices in range the [order]
    fields are 0..N-1 in list order, no clip is lost, the clip that was at
    [fromIndex] is at [toIndex], and the other clips keep their relative
    order and change in nothing but [order].  Moving the first of three
    clips to the end gives [c2; c3; c1] with orders 0, 1, 2. *)
Theorem order_contiguous_after_remove_and_reorder (state : EditorState)
  (id : string) :
  (map Clip.order (media (removeItem state id))
   = indices (length (media (removeItem state id)))
   /\ Forall2 sameUpToOrder (media (removeItem state id))
        (filter (fun c => negb (String.eqb (Clip.id c) id)) (media state))
   /\ (selectedId state = Some id -> selectedId (removeItem state id) = None)
   /\ (selectedId state <> Some id ->
       selectedId (removeItem state id) = selectedId state))
  /\ (forall fromIndex toIndex,
        0 <= fromIndex < Z.of_nat (length (media state)) ->
        0 <= toIndex < Z.of_nat (length (media state)) ->
        map runtimeOrder (media (reorderClips state fromIndex toIndex))
        = indices (length (media (reorderClips state fromIndex toIndex)))
        /\ length (media (reorderClips state fromIndex toIndex))
           = length (media state)
        /\ exists moved reordered,
             nth_error (media state) (Z.to_nat fromIndex) = Some moved
             /\ media (reorderClips state fromIndex toIndex)
                = map ClipObj reordered
             /\ Forall2 sameUpToOrder reordered
                  (insertAt (Z.to_nat toIndex) moved
                     (without (Z.to_nat fromIndex) (media state)))
             /\ Forall2 sameUpToOrder
                  (without (Z.to_nat toIndex) reordered)
                  (without (Z.to_nat fromIndex) (media state)))
  /\ media (reorderClips threeClips 0 2)
     = [ClipObj (sampleClip "clip2" 50 100 0);
        ClipObj (sampleClip "clip3" 100 150 1);
        ClipObj (sampleClip "clip1" 0 50 2)].
Proof.
  split; [|split; [|reflexivity]].
  - rewrite removeItem_media. unfold mapi.
    split; [rewrite mapiFrom_withOrder_orders, mapiFrom_length; reflexivity|].
    split; [apply mapiFrom_withOrder_same|].
    unfold removeItem; read_fields. split.
    + intros ->. simpl. rewrite String.eqb_refl. reflexivity.
    + intros Hsel. destruct (selectedIs (selectedId state) id) eqn:E.
      * apply selectedIs_true in E; contradiction.
      * reflexivity.
  - intros fromIndex toIndex Hfrom Hto.
    split; [apply reorderClips_orders|].
    assert (Hk : relativeStart (length (media state)) fromIndex
                 = Z.to_nat fromIndex)
      by (apply relativeStart_in_range; lia).
    assert (Hj : relativeStart (pred (length (media state))) toIndex
                 = Z.to_nat toIndex)
      by (apply relativeStart_in_range; lia).
    destruct (nth_error (media state) (Z.to_nat fromIndex)) as [moved|] eqn:E;
      [|apply nth_error_None in E; lia].
    assert (Hlen : length (without (Z.to_nat fromIndex) (media state))
                   = pred (length (media state)))
      by (apply without_length; lia).
    pose proof (reorderClips_moves state fromIndex toIndex moved) as Hm.
    rewrite Hk, Hj in Hm. specialize (Hm E).
    split.
    + rewrite Hm, length_map. unfold mapi.
      rewrite mapiFrom_length, insertAt_length, Hlen. lia.
    + exists moved. eexists. split; [reflexivity|]. split; [exact Hm|].
      split; [apply mapiFrom_withOrder_same|].
      rewrite <- (without_insertAt
                    (without (Z.to_nat fromIndex) (media state))
                    (Z.to_nat toIndex) moved) at 2 by lia.
      apply Forall2_without, mapiFrom_withOrder_same.
Qed.

Lemma order_contiguous_after_remove_and_reorder_witness :
  selectedId (selectItem threeClips (Some "clip2")) = Some "clip2"
  /\ selectedId (removeItem (selectItem threeClips (Some "clip2")) "clip2")
     = None
  /\ 0 <= 0 < Z.of_nat (length (media threeClips))
  /\ 0 <= 2 < Z.of_nat (length (media threeClips))
  /\ length (media (reorderClips threeClips 0 2)) = length (media threeClips).
Proof.
  assert (Hsel : selectedId (selectItem threeClips (Some "clip2"))
                 = Some "clip2") by reflexivity.
  assert (Hfrom : 0 <= 0 < Z.of_nat (length (media threeClips)))
    by (simpl; lia).
  assert (Hto : 0 <= 2 < Z.of_nat (length (media threeClips)))
    by (simpl; lia).
  split; [exact Hsel|].
  split.
  - destruct (order_contiguous_after_remove_and_reorder
                (selectItem threeClips (Some "clip2")) "clip2")
      as ((_ & _ & Hclear & _) & _).
    exact (Hclear Hsel).
  - split; [exact Hfrom|]. split; [exact Hto|].
    destruct (order_contiguous_after_remove_and_reorder threeClips "clip2")
      as (_ & Hreorder & _).
    destruct (Hreorder 0 2 Hfrom Hto) as (_ & Hlen & _).
    exact Hlen.
Defined.

(** C10, as the code has it.  When [fromIndex] is below the number of clips
    and there is a clip at all (a negative [fromIndex] counts from the end),
    the media list that [reorderClips] returns has the length of the input
    and is, up to the renumbered [order] fields, a permutation of it.  When
    [fromIndex] is at least the number of clips, or there is no clip, the
    splice removes nothing and its [undefined] result is inserted: the list
    grows by one element, an object with an [order] field only, among the
    input clips in their order. *)
Theorem reorderClips_media (state : EditorState) (fromIndex toIndex : Z) :
  (fromIndex < Z.of_nat (length (media state)) -> media state <> [] ->
   length (media (reorderClips state fromIndex toIndex))
   = length (media state)
   /\ exists reordered permuted,
        media (reorderClips state fromIndex toIndex) = map ClipObj reordered
        /\ Forall2 sameUpToOrder reordered permuted
        /\ Permutation permuted (media state))
  /\ (Z.of_nat (length (media state)) <= fromIndex \/ media state = [] ->
      length (media (reorderClips state fromIndex toIndex))
      = S (length (media state))
      /\ exists before after,
           media (reorderClips state fromIndex toIndex)
           = map ClipObj before
               ++ OrderOnly (Z.of_nat (length before)) :: map ClipObj after
           /\ Forall2 sameUpToOrder (before ++ after) (media state)).
Proof.
  split.
  - intros Hfrom Hne.
    assert (Hk : (relativeStart (length (media state)) fromIndex
                  < length (media state))%nat).
    { apply relativeStart_lt_iff. split; [exact Hfrom|].
      destruct (media state); [contradiction|simpl; lia]. }
    destruct (nth_error (media state)
                (relativeStart (length (media state)) fromIndex))
      as [moved|] eqn:E; [|apply nth_error_None in E; lia].
    rewrite (reorderClips_moves state fromIndex toIndex moved E).
    split.
    + rewrite length_map. unfold mapi.
      rewrite mapiFrom_length, insertAt_length, without_length by exact Hk.
      lia.
    + eexists. eexists. split; [reflexivity|].
      split; [apply mapiFrom_withOrder_same|].
      rewrite insertAt_perm. apply without_perm, E.
  - intros Hout.
    assert (Hk : (length (media state)
                  <= relativeStart (length (media state)) fromIndex)%nat).
    { pose proof (relativeStart_lt_iff (length (media state)) fromIndex) as Hiff.
      destruct Hout as [Hout|Hout]; [lia|rewrite Hout in *; simpl; lia]. }
    rewrite (reorderClips_inserts_undefined state fromIndex toIndex Hk).
    set (j := relativeStart (length (media state)) toIndex).
    split.
    + unfold mapi. rewrite mapiFrom_length, insertAt_length, length_map.
      reflexivity.
    + exists (mapiFrom Clip.withOrder 0 (firstn j (media state))).
      exists (mapiFrom Clip.withOrder (Z.of_nat j + 1)
                (skipn j (media state))).
      assert (Hj : length (firstn j (media state)) = j).
      { rewrite length_firstn. pose proof (relativeStart_le
          (length (media state)) toIndex). fold j in H. lia. }
      split.
      * unfold mapi, insertAt.
        rewrite firstn_map, skipn_map, mapiFrom_app.
        cbn [mapiFrom spreadWithOrder].
        rewrite !mapiFrom_spread_Some, length_map, mapiFrom_length, Hj.
        reflexivity.
      * rewrite <- (firstn_skipn j (media state)) at 3.
        apply Forall2_app; apply mapiFrom_withOrder_same.
Qed.

Lemma reorderClips_media_witness :
  (-1 < Z.of_nat (length (media threeClips)) /\ media threeClips <> []
   /\ length (media (reorderClips threeClips (-1) 0))
      = length (media threeClips))
  /\ ((Z.of_nat (length (media threeClips)) <= 3 \/ media threeClips = [])
      /\ length (media (reorderClips threeClips 3 0))
         = S (length (media threeClips))).
Proof.
  assert (Hin : -1 < Z.of_nat (length (media threeClips))) by (simpl; lia).
  assert (Hne : media threeClips <> []) by discriminate.
  assert (Hout : Z.of_nat (length (media threeClips)) <= 3
                 \/ media threeClips = []) by (left; simpl; lia).
  split.
  - split; [exact Hin|]. split; [exact Hne|].
    exact (proj1 (proj1 (reorderClips_media threeClips (-1) 0) Hin Hne)).
  - split; [exact Hout|].
    exact (proj1 (proj2 (reorderClips_media threeClips 3 0) Hout)).
Defined.

(** C10, as stated, fails for a negative [fromIndex]: it is outside
    [0, |media|), and the splice still removes a clip (the last for -1), so
    the list does not grow and holds the input clips, renumbered. *)
Lemma reorderClips_negative_from_moves_last :
  ~ (0 <= -1 < Z.of_nat (length (media threeClips)))
  /\ length (media (reorderClips threeClips (-1) 0))
     = length (media threeClips)
  /\ media (reorderClips threeClips (-1) 0)
     = [ClipObj (sampleClip "clip3" 100 150 0);
        ClipObj (sampleClip "clip1" 0 50 1);
        ClipObj (sampleClip "clip2" 50 100 2)].
Proof.
  split; [lia|]. split; reflexivity.
Qed.

(** ** Validation *)

Lemma insertByStartFrame_perm (a : Clip.t) (l : list Clip.t) :
  Permutation (insertByStartFrame a l) (a :: l).
Proof.
  induction l as [|b l IH]; simpl; [reflexivity|].
  destruct (Clip.startFrame a - Clip.startFrame b <=? 0); [reflexivity|].
  rewrite IH. apply perm_swap.
Qed.

Lemma sortByStartFrame_perm (l : list Clip.t) :
  Permutation (sortByStartFrame l) l.
Proof.
  induction l as [|a l IH]; simpl; [reflexivity|].
  rewrite insertByStartFrame_perm, IH. reflexivity.
Qed.

Lemma insertByStartFrame_sorted (a : Clip.t) (l : list Clip.t) :
  StronglySorted startsBefore l ->
  StronglySorted startsBefore (insertByStartFrame a l).
Proof.
  induction 1 as [|b l Hs IH Hb]; simpl.
  - repeat constructor.
  - destruct (Clip.startFrame a - Clip.startFrame b <=? 0) eqn:E.
    + constructor; [constructor; assumption|].
      constructor; [unfold startsBefore; lia|].
      eapply Forall_impl; [|exact Hb].
      unfold startsBefore; intros c Hc; lia.
    + constructor; [exact IH|].
      rewrite (insertByStartFrame_perm a l).
      constructor; [unfold startsBefore; lia|exact Hb].
Qed.

Lemma sortByStartFrame_sorted (l : list Clip.t) :
  StronglySorted startsBefore (sortByStartFrame l).
Proof.
  induction l as [|a l IH]; simpl; [constructor|].
  apply insertByStartFrame_sorted, IH.
Qed.

(** Stability: clips with the same start frame keep their order. *)
Lemma insertByStartFrame_stable (key : Z) (a : Clip.t) (l : list Clip.t) :
  StronglySorted startsBefore l ->
  filter (fun c => Clip.startFrame c =? key) (insertByStartFrame a l)
  = filter (fun c => Clip.startFrame c =? key) (a :: l).
Proof.
  induction 1 as [|b l Hs IH Hb]; [reflexivity|].
  cbn [insertByStartFrame].
  destruct (Clip.startFrame a - Clip.startFrame b <=? 0) eqn:E;
    [reflexivity|].
  cbn [filter] in *. rewrite IH.
  destruct (Clip.startFrame a =? key) eqn:Ea;
    destruct (Clip.startFrame b =? key) eqn:Eb; try reflexivity.
  lia.
Qed.

Lemma sortByStartFrame_stable (key : Z) (l : list Clip.t) :
  filter (fun c => Clip.startFrame c =? key) (sortByStartFrame l)
  = filter (fun c => Clip.startFrame c =? key) l.
Proof.
  induction l as [|a l IH]; [reflexivity|].
  cbn [sortByStartFrame].
  rewrite insertByStartFrame_stable by apply sortByStartFrame_sorted.
  cbn [filter]. rewrite IH. reflexivity.
Qed.

Lemma flat_map_shift {A : Type} (f : nat -> list A) (n : nat) :
  flat_map f (seq 1 n) = flat_map (fun i => f (S i)) (seq 0 n).
Proof.
  rewrite <- seq_shift.
  induction (seq 0 n) as [|i l IH]; simpl; [|rewrite IH]; reflexivity.
Qed.

(** The index loop over the sorted clips visits the consecutive pairs. *)
Lemma overlap_loop_pairs (l : list Clip.t) :
  flat_map (overlapAt l) (seq 0 (length l - 1))
  = map render
      (map (fun p => Overlap (Clip.id (fst p)) (Clip.id (snd p)))
         (filter (fun p => Clip.startFrame (snd p) <? Clip.endFrame (fst p))
            (adjacentPairs l))).
Proof.
  induction l as [|a l IH]; [reflexivity|].
  destruct l as [|b l]; [reflexivity|].
  replace (length (a :: b :: l) - 1)%nat with (S (length (b :: l) - 1))
    by (simpl; lia).
  cbn [seq flat_map]. rewrite flat_map_shift.
  change (flat_map (fun i => overlapAt (a :: b :: l) (S i)))
    with (flat_map (overlapAt (b :: l))).
  rewrite IH.
  cbn [adjacentPairs filter fst snd].
  unfold overlapAt at 1; cbn [nth_error]. rewrite Z.gtb_ltb.
  destruct (Clip.startFrame b <? Clip.endFrame a); reflexivity.
Qed.

Lemma rangeErrors_render (item : string * Z * Z) :
  rangeErrors item = map render (rangeDiagnostics item).
Proof.
  destruct item as [[i s] e]; unfold rangeErrors, rangeDiagnostics.
  rewrite Z.geb_leb.
  destruct (e <=? s), (s <? 0); reflexivity.
Qed.

Lemma flat_map_rangeErrors (items : list (string * Z * Z)) :
  flat_map rangeErrors items
  = map render (flat_map rangeDiagnostics items).
Proof.
  induction items as [|item items IH]; [reflexivity|].
  cbn [flat_map]. rewrite map_app, IH, rangeErrors_render. reflexivity.
Qed.

(** C9.  [validateTimelineState] returns the rendering of exactly these
    diagnostics, in this order: one overlap diagnostic, naming both ids, for
    each pair of consecutive clips in the stable sort by [startFrame] whose
    first ends after the second starts (overlays take no part in it); then,
    for every clip and then every overlay, one diagnostic when
    [startFrame >= endFrame] and one when [startFrame < 0].  The sort returns
    the clips, ordered by start frame, clips of equal start in their list
    order.  For two clips [0, 60) and [50, 100), in either list order, and
    no overlay, the result is the one overlap diagnostic naming both ids. *)
Theorem validateTimelineState_diagnostics (state : EditorState) :
  validateTimelineState state = map render (expectedDiagnostics state)
  /\ Permutation (sortByStartFrame (media state)) (media state)
  /\ StronglySorted startsBefore (sortByStartFrame (media state))
  /\ (forall key,
        filter (fun c => Clip.startFrame c =? key)
          (sortByStartFrame (media state))
        = filter (fun c => Clip.startFrame c =? key) (media state))
  /\ (forall c1 c2 : Clip.t,
        Clip.startFrame c1 = 0 -> Clip.endFrame c1 = 60 ->
        Clip.startFrame c2 = 50 -> Clip.endFrame c2 = 100 ->
        (media state = [c1; c2] \/ media state = [c2; c1]) ->
        texts state = [] ->
        validateTimelineState state
        = [render (Overlap (Clip.id c1) (Clip.id c2))])
  /\ validateTimelineState overlapState
     = ["Clip clip1 overlaps with clip clip2"].
Proof.
  split.
  { unfold validateTimelineState, expectedDiagnostics, overlapDiagnostics.
    rewrite overlap_loop_pairs, flat_map_app, !flat_map_rangeErrors,
      !map_app.
    reflexivity. }
  split; [apply sortByStartFrame_perm|].
  split; [apply sortByStartFrame_sorted|].
  split; [intros key; apply sortByStartFrame_stable|].
  split; [|reflexivity].
  intros c1 c2 Hs1 He1 Hs2 He2 Hmedia Htexts.
  unfold validateTimelineState. rewrite Htexts.
  destruct Hmedia as [-> | ->];
    cbn [sortByStartFrame insertByStartFrame map app];
    rewrite ?Hs1, ?Hs2; cbn [Z.sub Z.opp Z.add Z.leb Z.compare Pos.compare
                                Z.pos_sub];
    cbn [length Nat.sub seq flat_map];
    unfold overlapAt, rangeErrors, clipItem; cbn [nth_error app];
    rewrite ?Hs1, ?He1, ?Hs2, ?He2; reflexivity.
Qed.

Lemma validateTimelineState_diagnostics_witness :
  Clip.startFrame (sampleClip "a" 0 60 1) = 0
  /\ Clip.endFrame (sampleClip "a" 0 60 1) = 60
  /\ Clip.startFrame (sampleClip "b" 50 100 0) = 50
  /\ Clip.endFrame (sampleClip "b" 50 100 0) = 100
  /\ validateTimelineState
       (withMedia DEFAULT_EDITOR_STATE
          [sampleClip "b" 50 100 0; sampleClip "a" 0 60 1])
     = ["Clip a overlaps with clip b"].
Proof.
  repeat (split; [reflexivity|]).
  destruct (validateTimelineState_diagnostics
              (withMedia DEFAULT_EDITOR_STATE
                 [sampleClip "b" 50 100 0; sampleClip "a" 0 60 1]))
    as (_ & _ & _ & _ & Hpair & _).
  exact (Hpair (sampleClip "a" 0 60 1) (sampleClip "b" 50 100 0)
           eq_refl eq_refl eq_refl eq_refl (or_intror eq_refl) eq_refl).
Defined.

(** * Further properties of the engine *)

(** ** Content extent and duration *)

Lemma maxWithZero_le_iff (l : list Z) (d : Z) :
  maxWithZero l <= d <-> 0 <= d /\ Forall (fun e => e <= d) l.
Proof.
  unfold maxWithZero.
  induction l as [|e l IH]; simpl.
  - split; [intros H; split; [exact H|constructor]|intros [H _]; exact H].
  - split.
    + intros H. assert (H' : fold_right Z.max 0 l <= d) by lia.
      apply IH in H' as [H0 Hl]. split; [exact H0|].
      constructor; [lia|exact Hl].
    + intros [H0 Hl]. inversion Hl as [|? ? He Hl']; subst.
      assert (fold_right Z.max 0 l <= d) by (apply IH; split; assumption).
      lia.
Qed.

Lemma contentFits_iff (state : EditorState) :
  contentFits state
  <-> 0 <= duration state
      /\ Forall (fun e => e <= duration state) (endFrames state).
Proof. apply maxWithZero_le_iff. Qed.

Lemma extent_nonneg (state : EditorState) :
  0 <= calculateTimelineDuration state.
Proof. apply (maxWithZero_upper (endFrames state)). Qed.

(** The content extent reads [media] and [texts] only. *)
Lemma extent_same_content (s s' : EditorState) :
  media s' = media s -> texts s' = texts s ->
  calculateTimelineDuration s' = calculateTimelineDuration s.
Proof. unfold calculateTimelineDuration; intros -> ->; reflexivity. Qed.

Lemma extent_withDuration (state : EditorState) (d : Z) :
  calculateTimelineDuration (withDuration state d)
  = calculateTimelineDuration state.
Proof. reflexivity. Qed.

Lemma autoAdjust_fits (state : EditorState) :
  0 <= frameRate state -> contentFits (autoAdjustTimelineDuration state).
Proof.
  intros Hrate. unfold contentFits, autoAdjustTimelineDuration,
    getOptimalTimelineDuration, getOptimalTimelineDurationWith,
    getMinimumTimelineDuration.
  rewrite extent_withDuration.
  read_fields. lia.
Qed.

(** X1.  Each of the three duration commands leaves the content inside the
    timeline: [fitTimelineToContent] and the store's [shrinkTimeline] for
    every state and argument, [autoAdjustTimelineDuration] for a frame rate
    that is not negative, in which case it also leaves the two-second buffer
    after the content and at least ten seconds in all. *)
Theorem duration_commands_cover_content (state : EditorState) :
  contentFits (fitTimelineToContent state)
  /\ (forall seconds, contentFits (Store.shrinkTimeline state seconds))
  /\ (0 <= frameRate state ->
      contentFits (autoAdjustTimelineDuration state)
      /\ calculateTimelineDuration state + 2 * frameRate state
         <= duration (autoAdjustTimelineDuration state)
      /\ 10 * frameRate state <= duration (autoAdjustTimelineDuration state)
      /\ getMinimumTimelineDuration state
         <= getOptimalTimelineDuration state).
Proof.
  split; [|split].
  - unfold contentFits, fitTimelineToContent, getMinimumTimelineDuration.
    rewrite extent_withDuration.
    read_fields. lia.
  - intros seconds.
    unfold contentFits, Store.shrinkTimeline, getMinimumTimelineDuration.
    rewrite extent_withDuration.
    read_fields. lia.
  - intros Hrate. split; [apply autoAdjust_fits, Hrate|].
    unfold autoAdjustTimelineDuration, getOptimalTimelineDuration,
      getOptimalTimelineDurationWith, getMinimumTimelineDuration.
    read_fields. lia.
Qed.

Lemma duration_commands_cover_content_witness :
  0 <= frameRate fitState
  /\ contentFits (autoAdjustTimelineDuration fitState)
  /\ contentFits (Store.shrinkTimeline fitState 1000).
Proof.
  assert (H : 0 <= frameRate fitState) by (simpl; lia).
  destruct (duration_commands_cover_content fitState)
    as (_ & Hshrink & Hauto).
  split; [exact H|].
  split; [exact (proj1 (Hauto H))|apply Hshrink].
Defined.

(** X2.  [autoAdjustTimelineDuration] and [fitTimelineToContent] are
    idempotent.  With a frame rate that is not negative, fitting never gives
    a longer timeline than auto-adjusting, and auto-adjusting a fitted
    timeline gives exactly the optimal duration. *)
Theorem duration_commands_compose (state : EditorState) :
  autoAdjustTimelineDuration (autoAdjustTimelineDuration state)
  = autoAdjustTimelineDuration state
  /\ fitTimelineToContent (fitTimelineToContent state)
     = fitTimelineToContent state
  /\ fitTimelineToContent (autoAdjustTimelineDuration state)
     = fitTimelineToContent state
  /\ (0 <= frameRate state ->
      duration (fitTimelineToContent state)
      <= duration (autoAdjustTimelineDuration state)
      /\ duration (autoAdjustTimelineDuration (fitTimelineToContent state))
         = getOptimalTimelineDuration state).
Proof.
  unfold autoAdjustTimelineDuration, fitTimelineToContent,
    getOptimalTimelineDuration, getOptimalTimelineDurationWith,
    getMinimumTimelineDuration.
  rewrite !extent_withDuration.
  unfold withDuration.
  cbn [media texts selectedId playhead frameRate duration isPlaying
       masterVolume muted zoom scrollPosition].
  generalize (calculateTimelineDuration state); intros extent.
  split; [f_equal; lia|]. split; [f_equal; lia|]. split; [reflexivity|].
  intros Hrate. split; lia.
Qed.

Lemma duration_commands_compose_witness :
  0 <= frameRate fitState
  /\ duration (autoAdjustTimelineDuration (fitTimelineToContent fitState))
     = getOptimalTimelineDuration fitState.
Proof.
  assert (H : 0 <= frameRate fitState) by (simpl; lia).
  split; [exact H|].
  destruct (duration_commands_compose fitState) as (_ & _ & _ & Hrate).
  exact (proj2 (Hrate H)).
Defined.

(** X3.  The store's [shrinkTimeline] never cuts below the content extent;
    on a timeline that holds its content, shrinking by a number of frames
    that is not negative never lengthens it, shrinking by no more than the
    slack after the content removes exactly that many frames, and shrinking
    undoes an [extendTimeline] by the same number of seconds. *)
Theorem shrinkTimeline_protects_content (state : EditorState) (seconds : Z)
  (Hfits : contentFits state) :
  calculateTimelineDuration state
  <= duration (Store.shrinkTimeline state seconds)
  /\ (0 <= seconds * frameRate state ->
      duration (Store.shrinkTimeline state seconds) <= duration state)
  /\ (seconds * frameRate state
      <= duration state - calculateTimelineDuration state ->
      duration (Store.shrinkTimeline state seconds)
      = duration state - seconds * frameRate state)
  /\ (duration state - calculateTimelineDuration state
      <= seconds * frameRate state ->
      duration (Store.shrinkTimeline state seconds)
      = calculateTimelineDuration state)
  /\ Store.shrinkTimeline (Store.extendTimeline state seconds) seconds
     = state.
Proof.
  unfold contentFits in Hfits.
  unfold Store.shrinkTimeline, Store.extendTimeline,
    getMinimumTimelineDuration.
  rewrite extent_withDuration.
  read_fields.
  repeat split; try lia.
  destruct state; cbn [media texts selectedId playhead frameRate duration
    isPlaying masterVolume muted zoom scrollPosition] in *.
  f_equal. lia.
Qed.

Lemma shrinkTimeline_protects_content_witness :
  contentFits fitState
  /\ duration (Store.shrinkTimeline fitState 5) = 350
  /\ duration (Store.shrinkTimeline fitState 60) = 100
  /\ Store.shrinkTimeline (Store.extendTimeline fitState 10) 10 = fitState.
Proof.
  assert (H : contentFits fitState) by (vm_compute; discriminate).
  split; [exact H|].
  destruct (shrinkTimeline_protects_content fitState 5 H)
    as (_ & _ & Hexact & _).
  destruct (shrinkTimeline_protects_content fitState 60 H)
    as (_ & _ & _ & Hpin & _).
  destruct (shrinkTimeline_protects_content fitState 10 H)
    as (_ & _ & _ & _ & Hundo).
  split; [rewrite Hexact; [reflexivity|vm_compute; discriminate]|].
  split; [rewrite Hpin; [reflexivity|vm_compute; discriminate]|exact Hundo].
Defined.

(** ** Edits and the content extent *)

Lemma fits_intro (state : EditorState) :
  0 <= duration state ->
  (forall e, In e (endFrames state) -> e <= duration state) ->
  contentFits state.
Proof.
  intros H0 H. apply contentFits_iff. split; [exact H0|].
  apply Forall_forall, H.
Qed.

Lemma fits_elim (state : EditorState) :
  contentFits state ->
  0 <= duration state
  /\ forall e, In e (endFrames state) -> e <= duration state.
Proof.
  intros H. apply contentFits_iff in H as [H0 H]. split; [exact H0|].
  apply Forall_forall, H.
Qed.

Lemma mapiFrom_withOrder_endFrames (l : list Clip.t) :
  forall k,
    map Clip.endFrame (mapiFrom Clip.withOrder k l) = map Clip.endFrame l.
Proof.
  induction l as [|c l IH]; intros k; [reflexivity|].
  simpl; rewrite IH; reflexivity.
Qed.

Lemma in_endFrames (state : EditorState) (e : Z) :
  In e (endFrames state)
  <-> (exists c, In c (media state) /\ Clip.endFrame c = e)
      \/ (exists t, In t (texts state) /\ TextOverlay.endFrame t = e).
Proof.
  unfold endFrames. rewrite in_app_iff, !in_map_iff.
  split; intros [[v [H1 H2]]|[v [H1 H2]]]; [left|right|left|right];
    exists v; split; assumption.
Qed.

(** Removing an item never grows the content extent. *)
Lemma removeItem_extent_le (state : EditorState) (id : string) :
  calculateTimelineDuration (removeItem state id)
  <= calculateTimelineDuration state.
Proof.
  apply maxWithZero_le_iff. split; [apply extent_nonneg|].
  apply Forall_forall. intros e He.
  destruct (maxWithZero_upper (endFrames state)) as [_ Hup].
  rewrite Forall_forall in Hup. apply Hup.
  unfold removeItem, endFrames in *. read_fields.
  unfold mapi in He. rewrite mapiFrom_withOrder_endFrames in He.
  rewrite in_app_iff, !in_map_iff in *.
  destruct He as [[c [Hc Hin]]|[t [Ht Hin]]]; apply filter_In in Hin;
    [left; exists c|right; exists t]; tauto.
Qed.

Lemma endFrameBeyond_false (endFrame : option Z) (d e : Z) :
  0 <= d -> endFrameBeyond endFrame d = false -> endFrame = Some e ->
  e <= d.
Proof.
  intros Hd H ->. simpl in H.
  apply andb_false_iff in H as [H|H].
  - apply negb_false_iff, Z.eqb_eq in H. lia.
  - rewrite Z.gtb_ltb in H. apply Z.ltb_ge in H. exact H.
Qed.

Section EditsKeepContentInside.

Variable state : EditorState.
Hypothesis Hfits : contentFits state.
Hypothesis Hrate : 0 <= frameRate state.

Lemma store_trimClip_fits (id : string) (a b : Z) :
  a < b -> contentFits (Store.trimClip state id a b).
Proof.
  intros Hab. unfold Store.trimClip.
  destruct (Z.max a b >? duration state) eqn:E.
  - apply autoAdjust_fits; exact Hrate.
  - rewrite Z.gtb_ltb in E. apply Z.ltb_ge in E.
    destruct (fits_elim state Hfits) as [H0 Hends].
    apply fits_intro; [exact H0|].
    intros e He. apply in_endFrames in He.
    change (duration (trimClip state id a b)) with (duration state).
    destruct He as [[c' [Hc' <-]]|[t Ht]].
    + unfold trimClip in Hc'; read_fields. apply in_map_iff in Hc'.
      destruct Hc' as [c [<- Hc]].
      destruct (String.eqb (Clip.id c) id).
      * simpl. lia.
      * apply Hends, in_endFrames. left. exists c. split; [exact Hc|reflexivity].
    + apply Hends, in_endFrames. right. exists t. exact Ht.
Qed.

Lemma store_trimTextOverlay_fits (id : string) (a b : Z) :
  a < b -> contentFits (Store.trimTextOverlay state id a b).
Proof.
  intros Hab. unfold Store.trimTextOverlay.
  destruct (Z.max a b >? duration state) eqn:E.
  - apply autoAdjust_fits; exact Hrate.
  - rewrite Z.gtb_ltb in E. apply Z.ltb_ge in E.
    destruct (fits_elim state Hfits) as [H0 Hends].
    apply fits_intro; [exact H0|].
    intros e He. apply in_endFrames in He.
    change (duration (trimTextOverlay state id a b)) with (duration state).
    destruct He as [[c Hc]|[t' [Ht' <-]]].
    + apply Hends, in_endFrames. left. exists c. exact Hc.
    + unfold trimTextOverlay in Ht'; read_fields. apply in_map_iff in Ht'.
      destruct Ht' as [t [<- Ht]].
      destruct (String.eqb (TextOverlay.id t) id).
      * simpl. lia.
      * apply Hends, in_endFrames. right. exists t.
        split; [exact Ht|reflexivity].
Qed.

Lemma store_updateClip_fits (id : string) (updates : ClipUpdates.t) :
  contentFits (Store.updateClip state id updates).
Proof.
  unfold Store.updateClip.
  match goal with |- contentFits (if ?b then _ else _) =>
    destruct b eqn:E end.
  - apply autoAdjust_fits; exact Hrate.
  - destruct (fits_elim state Hfits) as [H0 Hends].
    apply fits_intro; [exact H0|].
    intros e He. apply in_endFrames in He. read_fields.
    destruct He as [[c' [Hc' <-]]|[t Ht]].
    + apply in_map_iff in Hc'. destruct Hc' as [c [<- Hc]].
      assert (Hold : Clip.endFrame c <= duration state).
      { apply Hends, in_endFrames. left. exists c.
        split; [exact Hc|reflexivity]. }
      destruct (String.eqb (Clip.id c) id); [|exact Hold].
      unfold mergeClip; cbn [Clip.endFrame].
      destruct (ClipUpdates.endFrame updates) as [e|] eqn:Ee;
        [|exact Hold].
      exact (endFrameBeyond_false _ _ e H0 E eq_refl).
    + apply Hends, in_endFrames. right. exists t. exact Ht.
Qed.

Lemma store_updateTextOverlay_fits (id : string) (updates : TextUpdates.t) :
  contentFits (Store.updateTextOverlay state id updates).
Proof.
  unfold Store.updateTextOverlay.
  match goal with |- contentFits (if ?b then _ else _) =>
    destruct b eqn:E end.
  - apply autoAdjust_fits; exact Hrate.
  - destruct (fits_elim state Hfits) as [H0 Hends].
    apply fits_intro; [exact H0|].
    intros e He. apply in_endFrames in He. read_fields.
    destruct He as [[c Hc]|[t' [Ht' <-]]].
    + apply Hends, in_endFrames. left. exists c. exact Hc.
    + apply in_map_iff in Ht'. destruct Ht' as [t [<- Ht]].
      assert (Hold : TextOverlay.endFrame t <= duration state).
      { apply Hends, in_endFrames. right. exists t.
        split; [exact Ht|reflexivity]. }
      destruct (String.eqb (TextOverlay.id t) id); [|exact Hold].
      unfold mergeText; cbn [TextOverlay.endFrame].
      destruct (TextUpdates.endFrame updates) as [e|] eqn:Ee;
        [|exact Hold].
      exact (endFrameBeyond_false _ _ e H0 E eq_refl).
Qed.

End EditsKeepContentInside.

(** X4.  On a timeline that holds its content, with a frame rate that is
    not negative, the store's editing actions leave the content inside the
    timeline: [addClip] and [addTextOverlay], [removeItem], [updateClip] and
    [updateTextOverlay] with any updates, [extendTimeline] by seconds that
    are not negative, and [trimClip] and [trimTextOverlay] when the new
    start is before the new end. *)
Theorem store_edits_keep_content_inside (state : EditorState)
  (Hfits : contentFits state) (Hrate : 0 <= frameRate state) :
  (forall clip newId, contentFits (Store.addClip state clip newId))
  /\ (forall text newId, contentFits (Store.addTextOverlay state text newId))
  /\ (forall id, contentFits (Store.removeItem state id))
  /\ (forall id updates, contentFits (Store.updateClip state id updates))
  /\ (forall id updates,
        contentFits (Store.updateTextOverlay state id updates))
  /\ (forall seconds, 0 <= seconds ->
        contentFits (Store.extendTimeline state seconds))
  /\ (forall id newStart newEnd, newStart < newEnd ->
        contentFits (Store.trimClip state id newStart newEnd))
  /\ (forall id newStart newEnd, newStart < newEnd ->
        contentFits (Store.trimTextOverlay state id newStart newEnd)).
Proof.
  split; [intros; apply autoAdjust_fits; exact Hrate|].
  split; [intros; apply autoAdjust_fits; exact Hrate|].
  split.
  { intros id. unfold contentFits, Store.removeItem.
    pose proof (removeItem_extent_le state id) as Hle.
    change (duration (removeItem state id)) with (duration state).
    unfold contentFits in Hfits. lia. }
  split; [intros; apply store_updateClip_fits; assumption|].
  split; [intros; apply store_updateTextOverlay_fits; assumption|].
  split.
  { intros seconds Hs. unfold contentFits, Store.extendTimeline.
    rewrite extent_withDuration. read_fields.
    unfold contentFits in Hfits. nia. }
  split; [intros; apply store_trimClip_fits; assumption|].
  intros; apply store_trimTextOverlay_fits; assumption.
Qed.

Lemma store_edits_keep_content_inside_witness :
  contentFits fitState /\ 0 <= frameRate fitState
  /\ contentFits (Store.addClip fitState (sampleClip "" 600 2000 0) "new")
  /\ contentFits (Store.trimClip fitState "clip1" 40 1200).
Proof.
  assert (Hf : contentFits fitState) by (vm_compute; discriminate).
  assert (Hr : 0 <= frameRate fitState) by (simpl; lia).
  split; [exact Hf|]. split; [exact Hr|].
  destruct (store_edits_keep_content_inside fitState Hf Hr)
    as (Hadd & _ & _ & _ & _ & _ & Htrim & _).
  split; [apply Hadd|apply Htrim; lia].
Defined.

(** X5.  The store's [trimClip] decides on the auto-extend from the raw
    arguments, while the end it stores is floored at one frame after the
    start.  So a trim of a clip to an empty or inverted range that starts at
    or before the end of the timeline leaves the duration as it is and ends
    the clip at [newStart + 1]; when it starts exactly at the end of a
    timeline that held its content, the clip ends one frame past the
    timeline. *)
Theorem store_trimClip_floor_not_extended (state : EditorState) (id : string)
  (clip : Clip.t) (newStart newEnd : Z)
  (Hin : In clip (media state)) (Hid : Clip.id clip = id)
  (Hempty : newEnd <= newStart) (Hinside : newStart <= duration state) :
  duration (Store.trimClip state id newStart newEnd) = duration state
  /\ In (Clip.withFrames clip (Z.max 0 newStart) (newStart + 1))
       (media (Store.trimClip state id newStart newEnd))
  /\ (newStart = duration state ->
      ~ contentFits (Store.trimClip state id newStart newEnd)).
Proof.
  assert (Hstore : Store.trimClip state id newStart newEnd
                   = trimClip state id newStart newEnd).
  { unfold Store.trimClip.
    destruct (Z.max newStart newEnd >? duration state) eqn:E;
      [|reflexivity].
    rewrite Z.gtb_ltb in E. apply Z.ltb_lt in E. lia. }
  rewrite Hstore.
  assert (Hclip : In (Clip.withFrames clip (Z.max 0 newStart) (newStart + 1))
                    (media (trimClip state id newStart newEnd))).
  { unfold trimClip; read_fields. apply in_map_iff. exists clip.
    split; [|exact Hin].
    rewrite Hid, String.eqb_refl. f_equal. lia. }
  split; [reflexivity|]. split; [exact Hclip|].
  intros Hend Hfits.
  destruct (fits_elim _ Hfits) as [_ Hends].
  specialize (Hends (newStart + 1)).
  change (duration (trimClip state id newStart newEnd))
    with (duration state) in Hends.
  assert (newStart + 1 <= duration state); [|lia].
  apply Hends, in_endFrames. left.
  eexists. split; [exact Hclip|reflexivity].
Qed.

Lemma store_trimClip_floor_not_extended_witness :
  In (sampleClip "clip1" 0 100 0) (media fitState)
  /\ 500 <= 500 /\ 500 <= duration fitState
  /\ duration (Store.trimClip fitState "clip1" 500 500) = 500
  /\ ~ contentFits (Store.trimClip fitState "clip1" 500 500).
Proof.
  assert (Hin : In (sampleClip "clip1" 0 100 0) (media fitState))
    by (left; reflexivity).
  assert (Hle : 500 <= 500) by lia.
  assert (Hd : 500 <= duration fitState) by (simpl; lia).
  split; [exact Hin|]. split; [exact Hle|]. split; [exact Hd|].
  destruct (store_trimClip_floor_not_extended fitState "clip1"
              (sampleClip "clip1" 0 100 0) 500 500 Hin eq_refl Hle Hd)
    as (Hdur & _ & Hout).
  split; [exact Hdur|apply Hout; reflexivity].
Defined.

(** ** Sorting an array *)

Lemma insertSorted_perm {A : Type} (compareFn : A -> A -> Z) (a : A)
  (l : list A) :
  Permutation (insertSorted compareFn a l) (a :: l).
Proof.
  induction l as [|b l IH]; simpl; [reflexivity|].
  destruct (compareFn a b <=? 0); [reflexivity|].
  rewrite IH. apply perm_swap.
Qed.

Lemma sortArray_perm {A : Type} (compareFn : A -> A -> Z) (l : list A) :
  Permutation (sortArray compareFn l) l.
Proof.
  induction l as [|a l IH]; simpl; [reflexivity|].
  rewrite insertSorted_perm, IH. reflexivity.
Qed.

Section SortByKey.

Context {A : Type}.
Variable key : A -> Z.

Lemma insertSorted_key_sorted (a : A) (l : list A) :
  StronglySorted (fun u v => key u <= key v) l ->
  StronglySorted (fun u v => key u <= key v)
    (insertSorted (fun u v => key u - key v) a l).
Proof.
  induction 1 as [|b l Hs IH Hb]; simpl.
  - repeat constructor.
  - destruct (key a - key b <=? 0) eqn:E.
    + constructor; [constructor; assumption|].
      constructor; [lia|].
      eapply Forall_impl; [|exact Hb].
      simpl; intros c Hc; lia.
    + constructor; [exact IH|].
      rewrite insertSorted_perm.
      constructor; [lia|exact Hb].
Qed.

Lemma sortArray_key_sorted (l : list A) :
  StronglySorted (fun u v => key u <= key v)
    (sortArray (fun u v => key u - key v) l).
Proof.
  induction l as [|a l IH]; simpl; [constructor|].
  apply insertSorted_key_sorted, IH.
Qed.

Lemma insertSorted_key_stable (k : Z) (a : A) (l : list A) :
  StronglySorted (fun u v => key u <= key v) l ->
  filter (fun c => key c =? k) (insertSorted (fun u v => key u - key v) a l)
  = filter (fun c => key c =? k) (a :: l).
Proof.
  induction 1 as [|b l Hs IH Hb]; [reflexivity|].
  cbn [insertSorted].
  destruct (key a - key b <=? 0) eqn:E; [reflexivity|].
  cbn [filter] in *. rewrite IH.
  destruct (key a =? k) eqn:Ea; destruct (key b =? k) eqn:Eb;
    try reflexivity.
  lia.
Qed.

Lemma sortArray_key_stable (k : Z) (l : list A) :
  filter (fun c => key c =? k) (sortArray (fun u v => key u - key v) l)
  = filter (fun c => key c =? k) l.
Proof.
  induction l as [|a l IH]; [reflexivity|].
  cbn [sortArray].
  rewrite insertSorted_key_stable by apply sortArray_key_sorted.
  cbn [filter]. rewrite IH. reflexivity.
Qed.

End SortByKey.

Lemma filter_perm {A : Type} (p : A -> bool) (l l' : list A) :
  Permutation l l' -> Permutation (filter p l) (filter p l').
Proof.
  induction 1 as [|v l l' H IH|u v l|l l' l'' H1 IH1 H2 IH2]; simpl.
  - constructor.
  - destruct (p v); [constructor|]; exact IH.
  - destruct (p u), (p v); try reflexivity. apply perm_swap.
  - etransitivity; eassumption.
Qed.

Lemma filter_none {A : Type} (p : A -> bool) (l : list A) :
  (forall v, In v l -> p v = false) -> filter p l = [].
Proof.
  induction l as [|v l IH]; intros H; [reflexivity|].
  simpl; rewrite (H v (or_introl eq_refl)). apply IH.
  intros w Hw; apply H; right; exact Hw.
Qed.

Lemma filter_sorted {A : Type} (R : A -> A -> Prop) (p : A -> bool)
  (l : list A) :
  StronglySorted R l -> StronglySorted R (filter p l).
Proof.
  induction 1 as [|v l Hs IH Hv]; simpl; [constructor|].
  destruct (p v); [|exact IH].
  constructor; [exact IH|].
  rewrite Forall_forall in *. intros w Hw.
  apply filter_In in Hw as [Hw _]. apply Hv, Hw.
Qed.

(** ** Timeline items *)

(** The items of a state before they are sorted. *)
Lemma in_timeline_items (state : EditorState) (item : TimelineItem.t) :
  In item (getTimelineItems state)
  <-> (exists c, In c (media state) /\ item = clipTimelineItem c)
      \/ (exists t, In t (texts state) /\ item = textTimelineItem t).
Proof.
  unfold getTimelineItems.
  split.
  - intros H. apply (Permutation_in _ (sortArray_perm _ _)) in H.
    apply in_app_iff in H. rewrite !in_map_iff in H.
    destruct H as [[c [<- Hc]]|[t [<- Ht]]];
      [left; exists c|right; exists t]; auto.
  - intros H.
    apply (Permutation_in _ (Permutation_sym (sortArray_perm _ _))).
    apply in_app_iff. rewrite !in_map_iff.
    destruct H as [[c [Hc ->]]|[t [Ht ->]]];
      [left; exists c|right; exists t]; auto.
Qed.

(** X6.  [getTimelineItems] returns every clip and every overlay of the
    state exactly once (one item each, so their number is the number of
    clips plus the number of overlays), in ascending order of start frame;
    items with the same start frame keep the order clips first, then
    overlays, each in list order. *)
Theorem getTimelineItems_sorted_items (state : EditorState) :
  Permutation (getTimelineItems state)
    (map clipTimelineItem (media state)
     ++ map textTimelineItem (texts state))
  /\ length (getTimelineItems state)
     = (length (media state) + length (texts state))%nat
  /\ StronglySorted itemStartsBefore (getTimelineItems state)
  /\ forall start,
       filter (fun item => TimelineItem.startFrame item =? start)
         (getTimelineItems state)
       = map clipTimelineItem
           (filter (fun c => Clip.startFrame c =? start) (media state))
         ++ map textTimelineItem
              (filter (fun t => TextOverlay.startFrame t =? start)
                 (texts state)).
Proof.
  split; [apply sortArray_perm|].
  split.
  { unfold getTimelineItems.
    rewrite (Permutation_length (sortArray_perm _ _)).
    rewrite length_app, !length_map. reflexivity. }
  split; [apply (sortArray_key_sorted TimelineItem.startFrame)|].
  intros start. unfold getTimelineItems.
  rewrite (sortArray_key_stable TimelineItem.startFrame).
  rewrite filter_app. f_equal.
  - induction (media state) as [|c l IH]; [reflexivity|].
    simpl. destruct (Clip.startFrame c =? start); simpl; rewrite IH;
      reflexivity.
  - induction (texts state) as [|t l IH]; [reflexivity|].
    simpl. destruct (TextOverlay.startFrame t =? start); simpl; rewrite IH;
      reflexivity.
Qed.

(** X7.  [getItemsAtFrame] returns exactly the items whose half-open range
    [startFrame, endFrame) holds the frame, in ascending order of start
    frame; it returns nothing at or after the content extent; and at the
    playhead it returns the clips and overlays that the preview counts as
    visible. *)
Theorem getItemsAtFrame_visible_items (state : EditorState) (frame : Z) :
  (forall item,
     In item (getItemsAtFrame state frame)
     <-> In item (getTimelineItems state)
         /\ TimelineItem.startFrame item <= frame
            < TimelineItem.endFrame item)
  /\ StronglySorted itemStartsBefore (getItemsAtFrame state frame)
  /\ (calculateTimelineDuration state <= frame ->
      getItemsAtFrame state frame = [])
  /\ Permutation (getItemsAtFrame state (playhead state))
       (map clipTimelineItem (Preview.visibleMedia state)
        ++ map textTimelineItem (Preview.visibleTexts state)).
Proof.
  split.
  { intros item. unfold getItemsAtFrame. rewrite filter_In.
    rewrite andb_true_iff, Z.geb_le, Z.ltb_lt. tauto. }
  split.
  { apply filter_sorted.
    apply (sortArray_key_sorted TimelineItem.startFrame). }
  split.
  { intros Hend. apply filter_none. intros item Hitem.
    apply andb_false_iff. right. apply Z.ltb_ge.
    destruct (maxWithZero_upper (endFrames state)) as [_ Hup].
    rewrite Forall_forall in Hup.
    assert (TimelineItem.endFrame item <= calculateTimelineDuration state);
      [|lia].
    apply Hup, in_endFrames.
    apply in_timeline_items in Hitem.
    destruct Hitem as [[c [Hc ->]]|[t [Ht ->]]];
      [left; exists c|right; exists t]; auto. }
  unfold getItemsAtFrame, getTimelineItems.
  rewrite (filter_perm _ _ _ (sortArray_perm _ _)).
  rewrite filter_app.
  unfold Preview.visibleMedia, Preview.visibleTexts.
  apply Permutation_app.
  - induction (media state) as [|c l IH]; [reflexivity|].
    simpl.
    destruct ((playhead state >=? Clip.startFrame c)
              && (playhead state <? Clip.endFrame c));
      simpl; [constructor|]; exact IH.
  - induction (texts state) as [|t l IH]; [reflexivity|].
    simpl.
    destruct ((playhead state >=? TextOverlay.startFrame t)
              && (playhead state <? TextOverlay.endFrame t));
      simpl; [constructor|]; exact IH.
Qed.

Lemma getItemsAtFrame_visible_items_witness :
  calculateTimelineDuration threeClips <= 150
  /\ getItemsAtFrame threeClips 150 = []
  /\ length (getItemsAtFrame threeClips 149) = 1%nat.
Proof.
  assert (H : calculateTimelineDuration threeClips <= 150)
    by (vm_compute; discriminate).
  split; [exact H|].
  destruct (getItemsAtFrame_visible_items threeClips 150)
    as (_ & _ & Hnone & _).
  split; [exact (Hnone H)|reflexivity].
Defined.

(** ** Removing an item *)

Lemma state_ext (s s' : EditorState) :
  media s = media s' -> texts s = texts s' ->
  selectedId s = selectedId s' -> playhead s = playhead s' ->
  frameRate s = frameRate s' -> duration s = duration s' ->
  isPlaying s = isPlaying s' -> masterVolume s = masterVolume s' ->
  muted s = muted s' -> zoom s = zoom s' ->
  scrollPosition s = scrollPosition s' -> s = s'.
Proof.
  destruct s, s'; simpl; intros; subst; reflexivity.
Qed.

Lemma in_mapiFrom_withOrder (l : list Clip.t) (c' : Clip.t) :
  forall k,
    In c' (mapiFrom Clip.withOrder k l) ->
    exists c, In c l /\ sameUpToOrder c' c.
Proof.
  induction l as [|c l IH]; intros k; simpl; [intros []|].
  intros [<-|H].
  - exists c. split; [left; reflexivity|reflexivity].
  - destruct (IH _ H) as [d [Hd Hs]]. exists d. split; [right|]; assumption.
Qed.

Lemma mapiFrom_withOrder_covers (l : list Clip.t) (c : Clip.t) :
  forall k,
    In c l ->
    exists c', In c' (mapiFrom Clip.withOrder k l) /\ sameUpToOrder c' c.
Proof.
  induction l as [|d l IH]; intros k; simpl; [intros []|].
  intros [->|H].
  - eexists. split; [left; reflexivity|reflexivity].
  - destruct (IH (k + 1) H) as [c' [Hc' Hs]].
    exists c'. split; [right|]; assumption.
Qed.

Lemma sameUpToOrder_id (c' c : Clip.t) :
  sameUpToOrder c' c -> Clip.id c' = Clip.id c.
Proof. intros ->; reflexivity. Qed.

Lemma selectedIs_cleared (sel : option string) (id : string) :
  selectedIs (if selectedIs sel id then None else sel) id = false.
Proof. destruct (selectedIs sel id) eqn:E; [reflexivity|exact E]. Qed.

Lemma removeItem_clip_ids (state : EditorState) (id : string) :
  forall c, In c (media (removeItem state id)) -> Clip.id c <> id.
Proof.
  intros c' Hc'. rewrite removeItem_media in Hc'.
  apply in_mapiFrom_withOrder in Hc' as [c [Hc Hs]].
  rewrite (sameUpToOrder_id _ _ Hs).
  apply filter_In in Hc as [_ Hc].
  apply negb_true_iff, String.eqb_neq in Hc. exact Hc.
Qed.

Lemma removeItem_text_ids (state : EditorState) (id : string) :
  forall t, In t (texts (removeItem state id)) -> TextOverlay.id t <> id.
Proof.
  intros t Ht. unfold removeItem in Ht; read_fields.
  apply filter_In in Ht as [_ Ht].
  apply negb_true_iff, String.eqb_neq in Ht. exact Ht.
Qed.

(** X8.  After [removeItem state id] no clip and no overlay has that id;
    every clip with another id is still there, changed in nothing but
    [order], and every overlay with another id is still there unchanged;
    the duration, the playhead, the frame rate and the playback state are
    untouched; and removing the same id again changes nothing. *)
Theorem removeItem_removes_exactly (state : EditorState) (id : string) :
  (forall c, In c (media (removeItem state id)) -> Clip.id c <> id)
  /\ (forall t, In t (texts (removeItem state id)) ->
        TextOverlay.id t <> id)
  /\ (forall c, In c (media state) -> Clip.id c <> id ->
        exists c', In c' (media (removeItem state id))
                   /\ sameUpToOrder c' c)
  /\ (forall t, In t (texts state) -> TextOverlay.id t <> id ->
        In t (texts (removeItem state id)))
  /\ (duration (removeItem state id) = duration state
      /\ playhead (removeItem state id) = playhead state
      /\ frameRate (removeItem state id) = frameRate state
      /\ isPlaying (removeItem state id) = isPlaying state)
  /\ removeItem (removeItem state id) id = removeItem state id.
Proof.
  pose proof (removeItem_clip_ids state id) as Hclips.
  pose proof (removeItem_text_ids state id) as Htexts.
  split; [exact Hclips|]. split; [exact Htexts|].
  split.
  { intros c Hc Hid. rewrite removeItem_media.
    apply mapiFrom_withOrder_covers, filter_In. split; [exact Hc|].
    apply negb_true_iff, String.eqb_neq, Hid. }
  split.
  { intros t Ht Hid. unfold removeItem; read_fields.
    apply filter_In. split; [exact Ht|].
    apply negb_true_iff, String.eqb_neq, Hid. }
  split; [repeat split|].
  apply state_ext; try reflexivity.
  - rewrite (removeItem_media (removeItem state id)).
    rewrite filter_all.
    + rewrite removeItem_media. unfold mapi.
      apply mapiFrom_withOrder_id.
      rewrite mapiFrom_withOrder_orders, mapiFrom_length. reflexivity.
    + intros c Hc. apply negb_true_iff, String.eqb_neq, Hclips, Hc.
  - change (texts (removeItem (removeItem state id) id))
      with (filter (fun text => negb (String.eqb (TextOverlay.id text) id))
              (texts (removeItem state id))).
    apply filter_all.
    intros t Ht. apply negb_true_iff, String.eqb_neq, Htexts, Ht.
  - change (selectedId (removeItem (removeItem state id) id))
      with (if selectedIs (selectedId (removeItem state id)) id
            then None else selectedId (removeItem state id)).
    change (selectedId (removeItem state id))
      with (if selectedIs (selectedId state) id
            then None else selectedId state).
    rewrite selectedIs_cleared. reflexivity.
Qed.

Lemma removeItem_removes_exactly_witness :
  In (sampleClip "clip3" 100 150 2) (media threeClips)
  /\ Clip.id (sampleClip "clip3" 100 150 2) <> "clip2"
  /\ In (sampleClip "clip3" 100 150 1) (media (removeItem threeClips "clip2")).
Proof.
  assert (Hin : In (sampleClip "clip3" 100 150 2) (media threeClips))
    by (right; right; left; reflexivity).
  assert (Hid : Clip.id (sampleClip "clip3" 100 150 2) <> "clip2")
    by discriminate.
  split; [exact Hin|]. split; [exact Hid|].
  destruct (removeItem_removes_exactly threeClips "clip2")
    as (_ & _ & Hkeep & _).
  destruct (Hkeep _ Hin Hid) as [c' [Hc' _]].
  right; left; reflexivity.
Defined.

(** ** The [order] fields *)

Lemma orders_kept (state state' : EditorState) :
  map Clip.order (media state') = map Clip.order (media state) ->
  ordersContiguous state -> ordersContiguous state'.
Proof.
  unfold ordersContiguous. intros Heq H.
  rewrite Heq, H. f_equal. f_equal.
  rewrite <- (length_map Clip.order (media state')), Heq, length_map.
  reflexivity.
Qed.

Lemma map_order_map (f : Clip.t -> Clip.t) (p : Clip.t -> bool)
  (l : list Clip.t) :
  (forall c, Clip.order (f c) = Clip.order c) ->
  map Clip.order (map (fun c => if p c then f c else c) l)
  = map Clip.order l.
Proof.
  intros Hf. induction l as [|c l IH]; [reflexivity|].
  simpl. rewrite IH. destruct (p c); [rewrite Hf|]; reflexivity.
Qed.

Lemma map_order_updateFirst (f : Clip.t -> Clip.t) (p : Clip.t -> bool)
  (l : list Clip.t) :
  (forall c, Clip.order (f c) = Clip.order c) ->
  map Clip.order (updateFirst p f l) = map Clip.order l.
Proof.
  intros Hf. induction l as [|c l IH]; [reflexivity|].
  simpl. destruct (p c); simpl; [rewrite Hf|rewrite IH]; reflexivity.
Qed.

Lemma addClip_orders (state : EditorState) (clip : Clip.t) (newId : string) :
  ordersContiguous state -> ordersContiguous (addClip state clip newId).
Proof.
  unfold ordersContiguous, addClip. read_fields. intros H.
  rewrite map_app, length_app, H. cbn [map length Clip.order].
  rewrite Nat.add_1_r, seq_S, map_app. reflexivity.
Qed.

(** X9.  When the [order] fields of the clips are 0..N-1 in list order,
    they still are after [addClip] (which numbers the new clip N and puts it
    last), after the store's [addClip], [trimClip], [setClipVolume] and
    [toggleClipMute], and after the store's [updateClip] with updates that
    do not name [order]. *)
Theorem orders_stay_contiguous (state : EditorState)
  (Horders : ordersContiguous state) :
  (forall clip newId,
     ordersContiguous (addClip state clip newId)
     /\ exists added,
          media (addClip state clip newId) = media state ++ [added]
          /\ Clip.order added = Z.of_nat (length (media state))
          /\ Clip.id added = newId)
  /\ (forall clip newId, ordersContiguous (Store.addClip state clip newId))
  /\ (forall id a b, ordersContiguous (Store.trimClip state id a b))
  /\ (forall id v, ordersContiguous (Store.setClipVolume state id v))
  /\ (forall id, ordersContiguous (Store.toggleClipMute state id))
  /\ (forall id updates, ClipUpdates.order updates = None ->
        ordersContiguous (Store.updateClip state id updates)).
Proof.
  split.
  { intros clip newId. split; [apply addClip_orders, Horders|].
    eexists. split; [reflexivity|]. split; reflexivity. }
  split.
  { intros clip newId.
    apply (orders_kept (addClip state clip newId));
      [reflexivity|apply addClip_orders, Horders]. }
  split.
  { intros id a b. apply (orders_kept state); [|exact Horders].
    unfold Store.trimClip.
    destruct (Z.max a b >? duration state);
      apply (map_order_map _ (fun c => String.eqb (Clip.id c) id));
      reflexivity. }
  split.
  { intros id v. apply (orders_kept state); [|exact Horders].
    apply map_order_updateFirst. reflexivity. }
  split.
  { intros id. apply (orders_kept state); [|exact Horders].
    apply map_order_updateFirst. reflexivity. }
  intros id updates Hnone. apply (orders_kept state); [|exact Horders].
  unfold Store.updateClip.
  match goal with |- context [if ?b then _ else _] => destruct b end;
    apply (map_order_map _ (fun c => String.eqb (Clip.id c) id));
    intros c; unfold mergeClip; cbn [Clip.order]; rewrite Hnone;
    reflexivity.
Qed.

Lemma orders_stay_contiguous_witness :
  ordersContiguous threeClips
  /\ ordersContiguous (addClip threeClips (sampleClip "" 150 200 7) "clip4")
  /\ ordersContiguous (Store.trimClip threeClips "clip2" 60 2000).
Proof.
  assert (H : ordersContiguous threeClips) by reflexivity.
  split; [exact H|].
  destruct (orders_stay_contiguous threeClips H)
    as (Hadd & _ & Htrim & _).
  split; [apply Hadd|apply Htrim].
Defined.

(** ** The selected item *)

Lemma find_unmatched {A : Type} (p : A -> bool) (l : list A) :
  (forall v, In v l -> p v = false) -> find p l = None.
Proof.
  induction l as [|v l IH]; intros H; [reflexivity|].
  simpl; rewrite (H v (or_introl eq_refl)). apply IH.
  intros w Hw; apply H; right; exact Hw.
Qed.

Lemma find_matched {A : Type} (p : A -> bool) (l : list A) (v : A) :
  In v l -> p v = true -> exists w, find p l = Some w.
Proof.
  intros Hin Hp. destruct (find p l) as [w|] eqn:E; [exists w; reflexivity|].
  rewrite (find_none _ _ E v Hin) in Hp. discriminate.
Qed.

Lemma find_app_last {A : Type} (p : A -> bool) (l : list A) (v : A) :
  (forall w, In w l -> p w = false) -> p v = true ->
  find p (l ++ [v]) = Some v.
Proof.
  induction l as [|w l IH]; intros H Hv; simpl.
  - rewrite Hv; reflexivity.
  - rewrite (H w (or_introl eq_refl)). apply IH; [|exact Hv].
    intros u Hu; apply H; right; exact Hu.
Qed.

Lemma getSelectedItem_some (state : EditorState)
  (item : Clip.t + TextOverlay.t) :
  Store.getSelectedItem state = Some item ->
  selectedId state = Some (ClipItem.itemId item)
  /\ ClipItem.itemId item <> ""
  /\ match item with
     | inl c => In c (media state)
     | inr t =>
         In t (texts state)
         /\ forall c, In c (media state) -> Clip.id c <> TextOverlay.id t
     end.
Proof.
  unfold Store.getSelectedItem.
  destruct (selectedId state) as [sel|]; [|discriminate].
  destruct (String.eqb sel "") eqn:Eempty; [discriminate|].
  apply String.eqb_neq in Eempty.
  destruct (find _ (media state)) as [c|] eqn:Ec.
  - intros [= <-]. apply find_some in Ec as [Hin Hid].
    apply String.eqb_eq in Hid. simpl. rewrite Hid. auto.
  - destruct (find _ (texts state)) as [t|] eqn:Et; [|discriminate].
    intros [= <-]. apply find_some in Et as [Hin Hid].
    apply String.eqb_eq in Hid. simpl. rewrite Hid.
    split; [reflexivity|]. split; [exact Eempty|]. split; [exact Hin|].
    intros c Hc. apply String.eqb_neq.
    exact (find_none _ _ Ec c Hc).
Qed.

(** X10.  What [getSelectedItem] returns is an item of the state whose id
    is the selection, and an overlay only when no clip has that id; a clip
    with the selected id is found whenever there is one and the id is not
    the empty string.  A selection that resolves to nothing is kept as it
    is by [selectItem], and [getSelectedItem] then returns null; so it does
    for no selection and for the empty string. *)
Theorem getSelectedItem_resolves (state : EditorState) :
  (forall item,
     Store.getSelectedItem state = Some item ->
     selectedId state = Some (ClipItem.itemId item)
     /\ ClipItem.itemId item <> ""
     /\ match item with
        | inl c => In c (media state)
        | inr t =>
            In t (texts state)
            /\ forall c, In c (media state) -> Clip.id c <> TextOverlay.id t
        end)
  /\ (forall c,
        In c (media state) -> selectedId state = Some (Clip.id c) ->
        Clip.id c <> "" ->
        exists c', Store.getSelectedItem state = Some (inl c')
                   /\ Clip.id c' = Clip.id c)
  /\ (forall id,
        (forall c, In c (media state) -> Clip.id c <> id) ->
        (forall t, In t (texts state) -> TextOverlay.id t <> id) ->
        selectedId (selectItem state (Some id)) = Some id
        /\ Store.getSelectedItem (selectItem state (Some id)) = None)
  /\ Store.getSelectedItem (selectItem state None) = None
  /\ Store.getSelectedItem (selectItem state (Some "")) = None.
Proof.
  split; [apply getSelectedItem_some|].
  split.
  { intros c Hc Hsel Hne. unfold Store.getSelectedItem. rewrite Hsel.
    apply String.eqb_neq in Hne. rewrite Hne.
    destruct (find_matched (fun d => String.eqb (Clip.id d) (Clip.id c))
                (media state) c Hc (String.eqb_refl _)) as [c' Hc'].
    rewrite Hc'. exists c'. split; [reflexivity|].
    apply find_some in Hc' as [_ Hid]. apply String.eqb_eq, Hid. }
  split; [|split; reflexivity].
  intros id Hclips Htexts. split; [reflexivity|].
  unfold Store.getSelectedItem, selectItem; read_fields.
  destruct (String.eqb id ""); [reflexivity|].
  rewrite find_unmatched; [rewrite find_unmatched; [reflexivity|]|].
  - intros t Ht. apply String.eqb_neq, Htexts, Ht.
  - intros c Hc. apply String.eqb_neq, Hclips, Hc.
Qed.

Lemma getSelectedItem_resolves_witness :
  (forall c, In c (media threeClips) -> Clip.id c <> "non-existent-id")
  /\ (forall t, In t (texts threeClips) ->
        TextOverlay.id t <> "non-existent-id")
  /\ selectedId (selectItem threeClips (Some "non-existent-id"))
     = Some "non-existent-id"
  /\ Store.getSelectedItem (selectItem threeClips (Some "non-existent-id"))
     = None.
Proof.
  assert (Hc : forall c, In c (media threeClips) ->
                 Clip.id c <> "non-existent-id").
  { simpl; intros c [<-|[<-|[<-|[]]]]; discriminate. }
  assert (Ht : forall t, In t (texts threeClips) ->
                 TextOverlay.id t <> "non-existent-id").
  { simpl; intros t []. }
  split; [exact Hc|]. split; [exact Ht|].
  destruct (getSelectedItem_resolves threeClips) as (_ & _ & Hdangling & _).
  exact (Hdangling "non-existent-id" Hc Ht).
Defined.

(** X11.  After [addClip] with a generated id that is not empty and that no
    clip has yet, the selected item is the clip just added.  After
    [removeItem state id] the selected item never has that id, and it is
    null when the selection was that id. *)
Theorem getSelectedItem_after_edits (state : EditorState) :
  (forall clip newId,
     newId <> "" ->
     (forall c, In c (media state) -> Clip.id c <> newId) ->
     exists added,
       Store.getSelectedItem (addClip state clip newId) = Some (inl added)
       /\ Clip.id added = newId
       /\ Clip.order added = Z.of_nat (length (media state))
       /\ Clip.startFrame added = Clip.startFrame clip
       /\ Clip.endFrame added = Clip.endFrame clip
       /\ Clip.src added = Clip.src clip)
  /\ (forall id item,
        Store.getSelectedItem (removeItem state id) = Some item ->
        ClipItem.itemId item <> id)
  /\ (forall id,
        selectedId state = Some id ->
        Store.getSelectedItem (removeItem state id) = None).
Proof.
  split.
  { intros clip newId Hne Hfresh.
    eexists. split.
    - unfold Store.getSelectedItem, addClip; read_fields.
      cbn [Clip.id].
      apply String.eqb_neq in Hne. rewrite Hne.
      rewrite find_app_last; [reflexivity| |apply String.eqb_refl].
      intros c Hc. apply String.eqb_neq, Hfresh, Hc.
    - repeat split. }
  split.
  { intros id item Hitem.
    destruct (getSelectedItem_some _ item Hitem) as (_ & _ & Hin).
    destruct item as [c|t]; simpl.
    - apply (removeItem_clip_ids state id), Hin.
    - apply (removeItem_text_ids state id), Hin. }
  intros id Hsel. unfold Store.getSelectedItem.
  change (selectedId (removeItem state id))
    with (if selectedIs (selectedId state) id
          then None else selectedId state).
  rewrite Hsel. simpl. rewrite String.eqb_refl. reflexivity.
Qed.

Lemma getSelectedItem_after_edits_witness :
  "clip4" <> ""
  /\ (forall c, In c (media threeClips) -> Clip.id c <> "clip4")
  /\ (exists added,
        Store.getSelectedItem
          (addClip threeClips (sampleClip "" 150 200 0) "clip4")
        = Some (inl added)
        /\ Clip.id added = "clip4")
  /\ selectedId (selectItem threeClips (Some "clip2")) = Some "clip2"
  /\ Store.getSelectedItem
       (removeItem (selectItem threeClips (Some "clip2")) "clip2") = None.
Proof.
  assert (Hne : "clip4" <> "") by discriminate.
  assert (Hfresh : forall c, In c (media threeClips) -> Clip.id c <> "clip4").
  { simpl; intros c [<-|[<-|[<-|[]]]]; discriminate. }
  split; [exact Hne|]. split; [exact Hfresh|].
  destruct (getSelectedItem_after_edits threeClips) as (Hadd & _).
  destruct (getSelectedItem_after_edits
              (selectItem threeClips (Some "clip2"))) as (_ & _ & Hrm).
  split.
  - destruct (Hadd (sampleClip "" 150 200 0) "clip4" Hne Hfresh)
      as [added (Hsel & Hid & _)].
    exists added. split; assumption.
  - split; [reflexivity|apply Hrm; reflexivity].
Defined.

(** ** The drag and resize handlers *)

Lemma store_trimClip_media (state : EditorState) (id : string) (a b : Z) :
  media (Store.trimClip state id a b) = media (trimClip state id a b).
Proof.
  unfold Store.trimClip. destruct (Z.max a b >? duration state); reflexivity.
Qed.

Lemma store_trimTextOverlay_texts (state : EditorState) (id : string)
  (a b : Z) :
  texts (Store.trimTextOverlay state id a b)
  = texts (trimTextOverlay state id a b).
Proof.
  unfold Store.trimTextOverlay.
  destruct (Z.max a b >? duration state); reflexivity.
Qed.



(** X12.  Resizing an item from the left leaves every item with its id
    with a range that starts at 0 or later and is not empty; the end stays
    where the handler's item had it when that end is positive, and at least
    10 frames remain when it is 10 or more.  Resizing from the right ends
    the item at least 10 frames after the handler's start; with a start
    that is not negative the start stays and at least 10 frames remain.
    This holds for clips and for overlays. *)
Theorem resize_keeps_ranges (state : EditorState)
  (item : Clip.t + TextOverlay.t) (mouseFrame : Z) :
  (forall c',
     In c' (media (ClipItem.resizeLeft state item TimelineItem.clip
                     mouseFrame)) ->
     Clip.id c' = ClipItem.itemId item ->
     0 <= Clip.startFrame c' < Clip.endFrame c'
     /\ (0 < ClipItem.itemEndFrame item ->
         Clip.endFrame c' = ClipItem.itemEndFrame item)
     /\ (10 <= ClipItem.itemEndFrame item ->
         10 <= Clip.endFrame c' - Clip.startFrame c'))
  /\ (forall t',
        In t' (texts (ClipItem.resizeLeft state item TimelineItem.text
                        mouseFrame)) ->
        TextOverlay.id t' = ClipItem.itemId item ->
        0 <= TextOverlay.startFrame t' < TextOverlay.endFrame t'
        /\ (0 < ClipItem.itemEndFrame item ->
            TextOverlay.endFrame t' = ClipItem.itemEndFrame item)
        /\ (10 <= ClipItem.itemEndFrame item ->
            10 <= TextOverlay.endFrame t' - TextOverlay.startFrame t'))
  /\ (forall c',
        In c' (media (ClipItem.resizeRight state item TimelineItem.clip
                        mouseFrame)) ->
        Clip.id c' = ClipItem.itemId item ->
        Clip.endFrame c'
        = Z.max (ClipItem.itemStartFrame item + 10) mouseFrame
        /\ Clip.startFrame c' = Z.max 0 (ClipItem.itemStartFrame item)
        /\ (0 <= ClipItem.itemStartFrame item ->
            Clip.startFrame c' = ClipItem.itemStartFrame item
            /\ 10 <= Clip.endFrame c' - Clip.startFrame c'))
  /\ (forall t',
        In t' (texts (ClipItem.resizeRight state item TimelineItem.text
                        mouseFrame)) ->
        TextOverlay.id t' = ClipItem.itemId item ->
        TextOverlay.endFrame t'
        = Z.max (ClipItem.itemStartFrame item + 10) mouseFrame
        /\ TextOverlay.startFrame t'
           = Z.max 0 (ClipItem.itemStartFrame item)
        /\ (0 <= ClipItem.itemStartFrame item ->
            TextOverlay.startFrame t' = ClipItem.itemStartFrame item
            /\ 10 <= TextOverlay.endFrame t' - TextOverlay.startFrame t')).
Proof.
  unfold ClipItem.resizeLeft, ClipItem.resizeRight.
  split; [|split; [|split]].
  - intros c' Hin Hid. rewrite store_trimClip_media in Hin.
    destruct (trimClip_matched_frames _ _ _ _ c' Hin Hid) as [-> ->]. lia.
  - intros t' Hin Hid. rewrite store_trimTextOverlay_texts in Hin.
    destruct (trimTextOverlay_matched_frames _ _ _ _ t' Hin Hid)
      as [-> ->]. lia.
  - intros c' Hin Hid. rewrite store_trimClip_media in Hin.
    destruct (trimClip_matched_frames _ _ _ _ c' Hin Hid) as [-> ->]. lia.
  - intros t' Hin Hid. rewrite store_trimTextOverlay_texts in Hin.
    destruct (trimTextOverlay_matched_frames _ _ _ _ t' Hin Hid)
      as [-> ->]. lia.
Qed.

Lemma resize_keeps_ranges_witness :
  In (sampleClip "clip2" 90 100 1)
    (media (ClipItem.resizeLeft threeClips
              (inl (sampleClip "clip2" 50 100 1)) TimelineItem.clip 97))
  /\ 10 <= ClipItem.itemEndFrame (inl (sampleClip "clip2" 50 100 1))
  /\ 10 <= Clip.endFrame (sampleClip "clip2" 90 100 1)
           - Clip.startFrame (sampleClip "clip2" 90 100 1).
Proof.
  assert (Hin : In (sampleClip "clip2" 90 100 1)
                  (media (ClipItem.resizeLeft threeClips
                            (inl (sampleClip "clip2" 50 100 1))
                            TimelineItem.clip 97)))
    by (right; left; reflexivity).
  assert (Hend : 10 <= ClipItem.itemEndFrame
                         (inl (sampleClip "clip2" 50 100 1)))
    by (simpl; lia).
  split; [exact Hin|]. split; [exact Hend|].
  destruct (resize_keeps_ranges threeClips
              (inl (sampleClip "clip2" 50 100 1)) 97) as (Hleft & _).
  destruct (Hleft _ Hin eq_refl) as (_ & _ & Hlen).
  exact (Hlen Hend).
Defined.



(** ** Transport *)



(** X15.  From a state whose playhead is within [0, duration], with a frame
    rate that is not negative, the skip buttons move the playhead by one
    second of frames, stopping at 0 and at the end of the timeline; they
    keep the playhead in range and, going through the store's [setPlayhead],
    do not stop playback.  The play/pause button is [togglePlayback]. *)
Theorem transport_buttons (state : EditorState)
  (Hrange : playheadInRange state) (Hrate : 0 <= frameRate state) :
  playhead (PlayControls.handleSkipBack state)
  = Z.max 0 (playhead state - frameRate state)
  /\ playhead (PlayControls.handleSkipForward state)
     = Z.min (duration state) (playhead state + frameRate state)
  /\ playheadInRange (PlayControls.handleSkipBack state)
  /\ playheadInRange (PlayControls.handleSkipForward state)
  /\ playhead (PlayControls.handleSkipBack state) <= playhead state
     <= playhead (PlayControls.handleSkipForward state)
  /\ isPlaying (PlayControls.handleSkipBack state) = isPlaying state
  /\ isPlaying (PlayControls.handleSkipForward state) = isPlaying state
  /\ PlayControls.handlePlayPause state = Store.togglePlayback state.
Proof.
  unfold playheadInRange in *.
  unfold PlayControls.handleSkipBack, PlayControls.handleSkipForward,
    PlayControls.handlePlayPause, Store.setPlayhead, Store.togglePlayback,
    togglePlayback, Store.pause, Store.play.
  read_fields.
  repeat split; try lia.
  destruct (isPlaying state); reflexivity.
Qed.

Lemma transport_buttons_witness :
  playheadInRange fitState /\ 0 <= frameRate fitState
  /\ playhead (PlayControls.handleSkipBack fitState) = 370
  /\ playhead (PlayControls.handleSkipForward fitState) = 430.
Proof.
  assert (H : playheadInRange fitState)
    by (unfold playheadInRange; simpl; lia).
  assert (Hr : 0 <= frameRate fitState) by (simpl; lia).
  split; [exact H|]. split; [exact Hr|].
  destruct (transport_buttons fitState H Hr) as (Hback & Hfwd & _).
  split; [rewrite Hback|rewrite Hfwd]; reflexivity.
Defined.

(** ** Settings *)

Lemma in_updateFirst {A : Type} (p : A -> bool) (f : A -> A) (l : list A)
  (v' : A) :
  In v' (updateFirst p f l) ->
  In v' l \/ exists v, In v l /\ p v = true /\ v' = f v.
Proof.
  induction l as [|v l IH]; simpl; [intros []|].
  destruct (p v) eqn:E; simpl.
  - intros [<-|H]; [right; exists v; auto|left; right; exact H].
  - intros [<-|H]; [left; left; reflexivity|].
    destruct (IH H) as [Hin|[w [Hw Hrest]]]; [left; right; exact Hin|].
    right; exists w; split; [right; exact Hw|exact Hrest].
Qed.

Lemma updateFirst_hits {A : Type} (p : A -> bool) (f : A -> A) (l : list A)
  (v : A) :
  In v l -> p v = true ->
  exists w, In w l /\ p w = true /\ In (f w) (updateFirst p f l).
Proof.
  induction l as [|u l IH]; simpl; [intros []|].
  intros Hin Hp. destruct (p u) eqn:E.
  - exists u. split; [left; reflexivity|]. split; [exact E|].
    left; reflexivity.
  - destruct Hin as [->|Hin]; [congruence|].
    destruct (IH Hin Hp) as [w [Hw [Hpw Hfw]]].
    exists w. split; [right; exact Hw|]. split; [exact Hpw|].
    right; exact Hfw.
Qed.

Lemma updateFirst_length {A : Type} (p : A -> bool) (f : A -> A)
  (l : list A) :
  length (updateFirst p f l) = length l.
Proof.
  induction l as [|v l IH]; simpl; [reflexivity|].
  destruct (p v); simpl; [|rewrite IH]; reflexivity.
Qed.

(** X16.  [setZoom] leaves the zoom within [0.1, 10] and the store's
    [setMasterVolume] leaves the master volume within [0, 1], whatever the
    value; a value that is in range already is kept.  The store's
    [setClipVolume] keeps the number of clips; a clip of the result is a
    clip of the input or a clip with that id whose volume is within [0, 1],
    and when some clip has the id, one such clip has its volume set. *)
Theorem settings_are_clamped (state : EditorState) (value : Q) :
  ((1 # 10) <= zoom (setZoom state value) <= (10 # 1))%Q
  /\ (((1 # 10) <= value <= (10 # 1))%Q ->
      (zoom (setZoom state value) == value)%Q)
  /\ (0 <= masterVolume (Store.setMasterVolume state value) <= 1)%Q
  /\ ((0 <= value <= 1)%Q ->
      (masterVolume (Store.setMasterVolume state value) == value)%Q)
  /\ (forall id,
        length (media (Store.setClipVolume state id value))
        = length (media state)
        /\ (forall c',
              In c' (media (Store.setClipVolume state id value)) ->
              In c' (media state)
              \/ (Clip.id c' = id
                  /\ exists v, Clip.volume c' = Some v
                               /\ (0 <= v <= 1)%Q))
        /\ (forall c,
              In c (media state) -> Clip.id c = id ->
              exists c',
                In c' (media (Store.setClipVolume state id value))
                /\ Clip.id c' = id
                /\ Clip.volume c' = Some (Qmax 0 (Qmin 1 value)))).
Proof.
  assert (Hvol : (0 <= Qmax 0 (Qmin 1 value) <= 1)%Q).
  { split; [apply Q.le_max_l|].
    apply Q.max_lub; [discriminate|apply Q.le_min_l]. }
  split.
  { unfold setZoom; read_fields. split; [apply Q.le_max_l|].
    apply Q.max_lub; [discriminate|apply Q.le_min_r]. }
  split.
  { unfold setZoom; read_fields. intros [Hlo Hhi].
    rewrite (Q.min_l _ _ Hhi). apply Q.max_r, Hlo. }
  split; [exact Hvol|].
  split.
  { unfold Store.setMasterVolume; read_fields. intros [Hlo Hhi].
    rewrite (Q.min_r _ _ Hhi). apply Q.max_r, Hlo. }
  intros id. unfold Store.setClipVolume; read_fields.
  split; [apply updateFirst_length|]. split.
  - intros c' Hc'. apply in_updateFirst in Hc'.
    destruct Hc' as [Hin|[c [Hc [Hid ->]]]]; [left; exact Hin|].
    right. apply String.eqb_eq in Hid.
    split; [exact Hid|]. eexists. split; [reflexivity|exact Hvol].
  - intros c Hc Hid.
    destruct (updateFirst_hits (fun d => String.eqb (Clip.id d) id)
                (fun clip => Clip.withVolume clip (Qmax 0 (Qmin 1 value)))
                (media state) c Hc) as [w [Hw [Hpw Hfw]]].
    { apply String.eqb_eq, Hid. }
    eexists. split; [exact Hfw|].
    apply String.eqb_eq in Hpw. split; [exact Hpw|reflexivity].
Qed.

Lemma settings_are_clamped_witness :
  ((1 # 10) <= 3 # 2 <= (10 # 1))%Q
  /\ (zoom (setZoom DEFAULT_EDITOR_STATE (3 # 2)) == 3 # 2)%Q
  /\ In (sampleClip "clip2" 50 100 1) (media threeClips)
  /\ exists c',
       In c' (media (Store.setClipVolume threeClips "clip2" (7 # 2)))
       /\ Clip.id c' = "clip2"
       /\ Clip.volume c' = Some (Qmax 0 (Qmin 1 (7 # 2))).
Proof.
  assert (Hz : ((1 # 10) <= 3 # 2 <= (10 # 1))%Q)
    by (split; discriminate).
  assert (Hin : In (sampleClip "clip2" 50 100 1) (media threeClips))
    by (right; left; reflexivity).
  split; [exact Hz|].
  destruct (settings_are_clamped DEFAULT_EDITOR_STATE (3 # 2))
    as (_ & Hkeep & _).
  destruct (settings_are_clamped threeClips (7 # 2))
    as (_ & _ & _ & _ & Hclip).
  split; [exact (Hkeep Hz)|]. split; [exact Hin|].
  destruct (Hclip "clip2") as (_ & _ & Hset).
  exact (Hset _ Hin eq_refl).
Defined.

(** ** Store actions on an id that matches nothing *)

Lemma trimClip_unmatched (state : EditorState) (id : string) (a b : Z) :
  (forall c, In c (media state) -> Clip.id c <> id) ->
  trimClip state id a b = state.
Proof.
  intros H. unfold trimClip.
  rewrite (map_unmatched (fun c => String.eqb (Clip.id c) id)).
  - destruct state; reflexivity.
  - apply clip_unmatched, H.
Qed.

Lemma trimTextOverlay_unmatched (state : EditorState) (id : string)
  (a b : Z) :
  (forall t, In t (texts state) -> TextOverlay.id t <> id) ->
  trimTextOverlay state id a b = state.
Proof.
  intros H. unfold trimTextOverlay.
  rewrite (map_unmatched (fun t => String.eqb (TextOverlay.id t) id)).
  - destruct state; reflexivity.
  - apply text_unmatched, H.
Qed.

(** X17.  For an id that matches no clip and no overlay, the store's
    [toggleClipMute] returns the input state, but its [trimClip],
    [trimTextOverlay], [updateClip] and [updateTextOverlay] still run their
    auto-extend check on the arguments: they return the input state when the
    check fails and the auto-adjusted state when it holds.  So a trim of a
    missing clip to frames past the end of a timeline shorter than its
    optimal duration lengthens the timeline. *)
Theorem store_unmatched_id_still_extends (state : EditorState) (id : string)
  (Hclips : forall c, In c (media state) -> Clip.id c <> id)
  (Htexts : forall t, In t (texts state) -> TextOverlay.id t <> id) :
  (forall a b,
     Store.trimClip state id a b
     = if Z.max a b >? duration state
       then autoAdjustTimelineDuration state else state)
  /\ (forall a b,
        Store.trimTextOverlay state id a b
        = if Z.max a b >? duration state
          then autoAdjustTimelineDuration state else state)
  /\ (forall updates,
        Store.updateClip state id updates
        = if endFrameBeyond (ClipUpdates.endFrame updates) (duration state)
          then autoAdjustTimelineDuration state else state)
  /\ (forall updates,
        Store.updateTextOverlay state id updates
        = if endFrameBeyond (TextUpdates.endFrame updates) (duration state)
          then autoAdjustTimelineDuration state else state)
  /\ Store.toggleClipMute state id = state
  /\ (forall a b,
        duration state < Z.max a b ->
        duration state < getOptimalTimelineDuration state ->
        duration state < duration (Store.trimClip state id a b)).
Proof.
  assert (Htrim : forall a b,
            Store.trimClip state id a b
            = if Z.max a b >? duration state
              then autoAdjustTimelineDuration state else state).
  { intros a b. unfold Store.trimClip.
    rewrite trimClip_unmatched by exact Hclips. reflexivity. }
  split; [exact Htrim|].
  split.
  { intros a b. unfold Store.trimTextOverlay.
    rewrite trimTextOverlay_unmatched by exact Htexts. reflexivity. }
  split.
  { intros updates. unfold Store.updateClip.
    rewrite (map_unmatched (fun c => String.eqb (Clip.id c) id))
      by (apply clip_unmatched, Hclips).
    read_fields. destruct state; reflexivity. }
  split.
  { intros updates. unfold Store.updateTextOverlay.
    rewrite (map_unmatched (fun t => String.eqb (TextOverlay.id t) id))
      by (apply text_unmatched, Htexts).
    read_fields. destruct state; reflexivity. }
  split.
  { unfold Store.toggleClipMute.
    rewrite updateFirst_unmatched by (apply clip_unmatched, Hclips).
    destruct state; reflexivity. }
  intros a b Hpast Hshort. rewrite Htrim.
  replace (Z.max a b >? duration state) with true
    by (symmetry; rewrite Z.gtb_ltb; apply Z.ltb_lt; exact Hpast).
  unfold autoAdjustTimelineDuration; read_fields. lia.
Qed.

Lemma store_unmatched_id_still_extends_witness :
  (forall c, In c (media DEFAULT_EDITOR_STATE) -> Clip.id c <> "ghost")
  /\ (forall t, In t (texts DEFAULT_EDITOR_STATE) ->
        TextOverlay.id t <> "ghost")
  /\ duration (Store.setDuration DEFAULT_EDITOR_STATE 100) < Z.max 0 101
  /\ duration (Store.setDuration DEFAULT_EDITOR_STATE 100)
     < duration
         (Store.trimClip (Store.setDuration DEFAULT_EDITOR_STATE 100)
            "ghost" 0 101).
Proof.
  assert (Hc : forall c, In c (media DEFAULT_EDITOR_STATE) ->
                 Clip.id c <> "ghost") by (intros c []).
  assert (Ht : forall t, In t (texts DEFAULT_EDITOR_STATE) ->
                 TextOverlay.id t <> "ghost") by (intros t []).
  assert (Hpast : duration (Store.setDuration DEFAULT_EDITOR_STATE 100)
                  < Z.max 0 101) by (simpl; lia).
  split; [exact Hc|]. split; [exact Ht|]. split; [exact Hpast|].
  destruct (store_unmatched_id_still_extends
              (Store.setDuration DEFAULT_EDITOR_STATE 100) "ghost" Hc Ht)
    as (_ & _ & _ & _ & _ & Hgrow).
  apply Hgrow; [exact Hpast|vm_compute; reflexivity].
Defined.

(** ** A clean validation *)

Lemma filter_nil_all {A : Type} (p : A -> bool) (l : list A) :
  filter p l = [] -> forall v, In v l -> p v = false.
Proof.
  induction l as [|u l IH]; simpl; [intros _ v []|].
  destruct (p u) eqn:E; [discriminate|].
  intros H v [<-|Hv]; [exact E|apply IH; assumption].
Qed.

Lemma flat_map_nil_all {A B : Type} (f : A -> list B) (l : list A) :
  flat_map f l = [] -> forall v, In v l -> f v = [].
Proof.
  induction l as [|u l IH]; simpl; [intros _ v []|].
  intros H. apply app_eq_nil in H as [Hu Hl].
  intros v [<-|Hv]; [exact Hu|apply IH; assumption].
Qed.

Lemma flat_map_all_nil {A B : Type} (f : A -> list B) (l : list A) :
  (forall v, In v l -> f v = []) -> flat_map f l = [].
Proof.
  induction l as [|u l IH]; intros H; [reflexivity|].
  simpl. rewrite (H u (or_introl eq_refl)), IH; [reflexivity|].
  intros v Hv; apply H; right; exact Hv.
Qed.

Lemma rangeErrors_nil (i : string) (s e : Z) :
  rangeErrors (i, s, e) = [] <-> 0 <= s < e.
Proof.
  unfold rangeErrors.
  destruct (s >=? e) eqn:E1; destruct (s <? 0) eqn:E2;
    rewrite ?Z.geb_leb in E1;
    try apply Z.leb_le in E1; try apply Z.leb_gt in E1;
    try apply Z.ltb_lt in E2; try apply Z.ltb_ge in E2;
    simpl; split; try discriminate; try lia; reflexivity.
Qed.

Lemma in_adjacentPairs {A : Type} (l : list A) (a b : A) :
  In (a, b) (adjacentPairs l) -> exists l1 l2, l = l1 ++ a :: b :: l2.
Proof.
  induction l as [|u l IH]; [intros []|].
  destruct l as [|v l]; [intros []|].
  cbn [adjacentPairs]. intros [[= <- <-]|H].
  - exists [], l. reflexivity.
  - destruct (IH H) as [l1 [l2 Hl]]. exists (u :: l1), l2.
    rewrite Hl. reflexivity.
Qed.

(** Consecutive clips that do not overlap, each of a range that is not
    empty: then no clip overlaps any later one. *)
Lemma chain_disjoint (l : list Clip.t) :
  (forall c, In c l -> Clip.startFrame c < Clip.endFrame c) ->
  (forall a b, In (a, b) (adjacentPairs l) -> endsBefore a b) ->
  StronglySorted endsBefore l.
Proof.
  induction l as [|a l IH]; intros Hrange Hadj; [constructor|].
  assert (Hl : StronglySorted endsBefore l).
  { apply IH.
    - intros c Hc; apply Hrange; right; exact Hc.
    - intros u v Huv. apply Hadj. destruct l as [|w l]; [destruct Huv|].
      right; exact Huv. }
  constructor; [exact Hl|].
  destruct l as [|b l]; [constructor|].
  assert (Hab : endsBefore a b) by (apply Hadj; left; reflexivity).
  constructor; [exact Hab|].
  inversion Hl as [|? ? _ Hb]; subst.
  eapply Forall_impl; [|exact Hb].
  intros c Hbc. unfold endsBefore in *.
  assert (Clip.startFrame b < Clip.endFrame b)
    by (apply Hrange; right; left; reflexivity).
  lia.
Qed.

Lemma disjoint_at_most_one (frame : Z) (l : list Clip.t) :
  StronglySorted endsBefore l ->
  Nat.le
    (length
       (filter (fun c => (frame >=? Clip.startFrame c)
                         && (frame <? Clip.endFrame c)) l))
    1.
Proof.
  unfold Nat.le.
  induction 1 as [|a l Hs IH Ha]; simpl; [lia|].
  destruct ((frame >=? Clip.startFrame a) && (frame <? Clip.endFrame a))
    eqn:E; [|exact IH].
  apply andb_true_iff in E as [_ E]. apply Z.ltb_lt in E.
  rewrite filter_none; [simpl; lia|].
  intros c Hc. rewrite Forall_forall in Ha. specialize (Ha c Hc).
  unfold endsBefore in Ha.
  apply andb_false_iff. left. rewrite Z.geb_leb. apply Z.leb_gt. lia.
Qed.

Lemma sorted_suffix {A : Type} (R : A -> A -> Prop) (l1 l2 : list A) :
  StronglySorted R (l1 ++ l2) -> StronglySorted R l2.
Proof.
  induction l1 as [|v l1 IH]; simpl; [auto|].
  intros H. inversion H; subst. apply IH; assumption.
Qed.

Lemma validate_nil_parts (state : EditorState) :
  validateTimelineState state = []
  <-> (forall a b,
         In (a, b) (adjacentPairs (sortByStartFrame (media state))) ->
         endsBefore a b)
      /\ (forall c, In c (media state) ->
            0 <= Clip.startFrame c < Clip.endFrame c)
      /\ (forall t, In t (texts state) ->
            0 <= TextOverlay.startFrame t < TextOverlay.endFrame t).
Proof.
  unfold validateTimelineState. rewrite overlap_loop_pairs, flat_map_app.
  split.
  - intros H. apply app_eq_nil in H as [Hov H].
    apply app_eq_nil in H as [Hc Ht].
    apply map_eq_nil, map_eq_nil in Hov.
    split; [|split].
    + intros a b Hab. pose proof (filter_nil_all _ _ Hov _ Hab) as Hf.
      simpl in Hf. apply Z.ltb_ge in Hf. exact Hf.
    + intros c Hin. apply (rangeErrors_nil (Clip.id c)).
      apply (flat_map_nil_all _ _ Hc (clipItem c)), in_map, Hin.
    + intros t Hin. apply (rangeErrors_nil (TextOverlay.id t)).
      apply (flat_map_nil_all _ _ Ht (textItem t)), in_map, Hin.
  - intros (Hov & Hc & Ht).
    rewrite filter_none.
    + simpl. rewrite !flat_map_all_nil; [reflexivity| |].
      * intros item Hitem. apply in_map_iff in Hitem as [t [<- Hin]].
        apply rangeErrors_nil, Ht, Hin.
      * intros item Hitem. apply in_map_iff in Hitem as [c [<- Hin]].
        apply rangeErrors_nil, Hc, Hin.
    + intros [a b] Hab. simpl. apply Z.ltb_ge. apply (Hov a b Hab).
Qed.

(** X18.  [validateTimelineState] returns no diagnostic exactly when every
    clip and every overlay has a range with [0 <= startFrame < endFrame]
    and no frame lies in two clips, that is, the composition never draws
    more than one clip at a frame. *)
Theorem validate_clean_iff_disjoint (state : EditorState) :
  validateTimelineState state = []
  <-> (forall c, In c (media state) ->
         0 <= Clip.startFrame c < Clip.endFrame c)
      /\ (forall t, In t (texts state) ->
            0 <= TextOverlay.startFrame t < TextOverlay.endFrame t)
      /\ (forall frame,
            (length (RootComposition.visibleClips state frame) <= 1)%nat).
Proof.
  rewrite validate_nil_parts. unfold RootComposition.visibleClips.
  split.
  - intros (Hov & Hc & Ht). split; [exact Hc|]. split; [exact Ht|].
    intros frame.
    rewrite <- (Permutation_length
                  (filter_perm _ _ _ (sortByStartFrame_perm (media state)))).
    apply disjoint_at_most_one, chain_disjoint; [|exact Hov].
    intros c Hin.
    apply (Permutation_in _ (sortByStartFrame_perm _)) in Hin.
    apply Hc, Hin.
  - intros (Hc & Ht & Hone). split; [|split; assumption].
    intros a b Hab. unfold endsBefore.
    destruct (Z.le_gt_cases (Clip.endFrame a) (Clip.startFrame b))
      as [Hle|Hgt]; [exact Hle|exfalso].
    destruct (in_adjacentPairs _ _ _ Hab) as [l1 [l2 Hl]].
    pose proof (sortByStartFrame_sorted (media state)) as Hsorted.
    rewrite Hl in Hsorted.
    apply sorted_suffix in Hsorted.
    inversion Hsorted as [|? ? _ Hfa]; subst.
    inversion Hfa as [|? ? Hstart _]; subst. unfold startsBefore in Hstart.
    assert (Hb : 0 <= Clip.startFrame b < Clip.endFrame b).
    { apply Hc, (Permutation_in _ (sortByStartFrame_perm _)).
      rewrite Hl. apply in_or_app. right. right. left. reflexivity. }
    specialize (Hone (Clip.startFrame b)).
    rewrite <- (Permutation_length
                  (filter_perm _ _ _ (sortByStartFrame_perm (media state))))
      in Hone.
    rewrite Hl, filter_app, length_app in Hone. cbn [filter] in Hone.
    replace ((Clip.startFrame b >=? Clip.startFrame a)
             && (Clip.startFrame b <? Clip.endFrame a)) with true in Hone
      by (symmetry; apply andb_true_iff; rewrite Z.geb_leb;
          split; [apply Z.leb_le|apply Z.ltb_lt]; lia).
    replace ((Clip.startFrame b >=? Clip.startFrame b)
             && (Clip.startFrame b <? Clip.endFrame b)) with true in Hone
      by (symmetry; apply andb_true_iff; rewrite Z.geb_leb;
          split; [apply Z.leb_le|apply Z.ltb_lt]; lia).
    simpl in Hone. lia.
Qed.

Lemma validate_clean_iff_disjoint_witness :
  validateTimelineState threeClips = []
  /\ (length (RootComposition.visibleClips threeClips 50) <= 1)%nat.
Proof.
  assert (H : validateTimelineState threeClips = []) by reflexivity.
  split; [exact H|].
  destruct (proj1 (validate_clean_iff_disjoint threeClips) H)
    as (_ & _ & Hone).
  apply Hone.
Defined.
